(** * TalentScout hiring assistant: the intake flow, the resume heuristics
      and the validators of [main.py], [utils.py] and [prompts.py].

    Python's [str] is a sequence of Unicode code points.  The functions of
    the repository that the properties below are about use four Unicode-aware
    builtins: [str.lower], [str.upper], [str.title], and the [re] module
    (the class [\w] and the flag [re.IGNORECASE]).  Their behaviour on the
    ASCII range is written out; the rows of the Unicode Character Database
    for the other code points are a parameter [ucd] of the development. *)

From Stdlib Require Import List NArith ZArith Bool String Ascii Lia Permutation.
Import ListNotations.

Set Implicit Arguments.

(** ** Python strings *)

(** A [str] value: its code points in order. *)
Definition pystr := list N.

(** A literal whose characters are all ASCII. *)
Definition str (s : string) : pystr :=
  map N_of_ascii (list_ascii_of_string s).

Definition LF : N := 10%N.

Definition pystr_eq_dec : forall a b : pystr, {a = b} + {a <> b} :=
  list_eq_dec N.eq_dec.

Definition pystr_eqb (a b : pystr) : bool :=
  if pystr_eq_dec a b then true else false.

(** Truth value of a string: [bool(s)]. *)
Definition truthy (s : pystr) : bool :=
  match s with [] => false | _ :: _ => true end.

(** [a or b] on strings. *)
Definition py_or (a b : pystr) : pystr := if truthy a then a else b.

(** [all(l)] for a list of strings. *)
Definition py_all (l : list pystr) : bool := forallb truthy l.

(** [s.startswith(p)], then [needle in hay]. *)
Fixpoint startswith (p s : pystr) : bool :=
  match p, s with
  | [], _ => true
  | _ :: _, [] => false
  | a :: p', b :: s' => N.eqb a b && startswith p' s'
  end.

Fixpoint contains (needle hay : pystr) : bool :=
  startswith needle hay
  || match hay with
     | [] => false
     | _ :: hay' => contains needle hay'
     end.

(** [sep.join(l)]. *)
Fixpoint join (sep : pystr) (l : list pystr) : pystr :=
  match l with
  | [] => []
  | [x] => x
  | x :: rest => x ++ sep ++ join sep rest
  end.

(** ** The ASCII rows of the character tables *)

Module Ascii7.
Local Open Scope N_scope.

Definition is_upper (c : N) : bool := (65 <=? c) && (c <=? 90).
Definition is_lower (c : N) : bool := (97 <=? c) && (c <=? 122).
Definition is_letter (c : N) : bool := is_upper c || is_lower c.
Definition is_digit (c : N) : bool := (48 <=? c) && (c <=? 57).

Definition to_lower (c : N) : N := if is_upper c then c + 32 else c.
Definition to_upper (c : N) : N := if is_lower c then c - 32 else c.

(** The ASCII characters with the property Case_Ignorable:
    apostrophe, full stop, colon, circumflex, grave accent. *)
Definition case_ignorable (c : N) : bool :=
  existsb (N.eqb c) [39; 46; 58; 94; 96].
End Ascii7.

(** One row of the character database, as CPython's [unicodectype.c] reads
    it.  A full case mapping yields between one and three code points, so
    it is kept as a first code point and the remaining ones. *)
Record UnicodeChar : Type := mkUnicodeChar {
  uc_alnum : bool;            (* [str.isalnum]: decides [\w] together with '_' *)
  uc_cased : bool;            (* property Cased *)
  uc_case_ignorable : bool;   (* property Case_Ignorable *)
  uc_tolower : N;             (* simple lowercase, used by [re.IGNORECASE] *)
  uc_lower : N * list N;      (* full lowercase, [str.lower] and [str.title] *)
  uc_upper : N * list N;      (* full uppercase, [str.upper] *)
  uc_title : N * list N       (* full titlecase, [str.title] *)
}.

Definition full (m : N * list N) : pystr := fst m :: snd m.

Definition ascii_row (c : N) : UnicodeChar :=
  {| uc_alnum := Ascii7.is_letter c || Ascii7.is_digit c;
     uc_cased := Ascii7.is_letter c;
     uc_case_ignorable := Ascii7.case_ignorable c;
     uc_tolower := Ascii7.to_lower c;
     uc_lower := (Ascii7.to_lower c, []);
     uc_upper := (Ascii7.to_upper c, []);
     uc_title := (Ascii7.to_upper c, []) |}.

(** A code point that has no case and is no letter or digit. *)
Definition caseless_row (c : N) : UnicodeChar :=
  {| uc_alnum := false; uc_cased := false; uc_case_ignorable := false;
     uc_tolower := c; uc_lower := (c, []); uc_upper := (c, []);
     uc_title := (c, []) |}.

(** Rows of the Unicode Character Database for the characters of the
    examples below: U+0130 LATIN CAPITAL LETTER I WITH DOT ABOVE (lowercase
    U+0069 U+0307, simple lowercase U+0069) and U+0307 COMBINING DOT ABOVE
    (a nonspacing mark: not alphanumeric, not cased, case-ignorable).  The
    other code points are given a caseless row; none occurs in the examples. *)
Definition ucd_excerpt (c : N) : UnicodeChar :=
  if N.eqb c 304 then
    {| uc_alnum := true; uc_cased := true; uc_case_ignorable := false;
       uc_tolower := 105%N; uc_lower := (105%N, [775%N]);
       uc_upper := (304%N, []); uc_title := (304%N, []) |}
  else if N.eqb c 775 then
    {| uc_alnum := false; uc_cased := false; uc_case_ignorable := true;
       uc_tolower := 775%N; uc_lower := (775%N, []);
       uc_upper := (775%N, []); uc_title := (775%N, []) |}
  else caseless_row c.

(** ** The model of [re]: a backtracking matcher

    The three patterns of the repository are built from single-character
    items (a literal, a set, [\w]), the greedy [+] of such an item,
    concatenation, alternation and the anchors [^] and [$].  The matcher
    explores the alternatives in the order of the [re] engine: [+] takes as
    many characters as it can and gives them back one at a time, [|] tries
    its left branch first. *)

Inductive regex : Type :=
| Chr (p : N -> bool)          (* one character accepted by [p] *)
| Rep1 (p : N -> bool)         (* [item+], greedy *)
| Cat (r1 r2 : regex)
| Alt (r1 r2 : regex)
| Eps                           (* the empty pattern *)
| Bol                           (* [^] *)
| Eol.                          (* [$], without re.MULTILINE *)

Section Matcher.
Variable A : Type.

(** The continuation receives the position reached and the rest of the
    subject. *)
Definition cont := nat -> pystr -> option A.

Fixpoint rep1 (p : N -> bool) (k : cont) (pos : nat) (s : pystr)
  : option A :=
  match s with
  | [] => None
  | c :: s' =>
      if p c then
        match rep1 p k (S pos) s' with
        | Some r => Some r
        | None => k (S pos) s'
        end
      else None
  end.

Fixpoint rmatch (r : regex) (k : cont) (pos : nat) (s : pystr)
  : option A :=
  match r with
  | Chr p =>
      match s with
      | c :: s' => if p c then k (S pos) s' else None
      | [] => None
      end
  | Rep1 p => rep1 p k pos s
  | Cat r1 r2 => rmatch r1 (rmatch r2 k) pos s
  | Alt r1 r2 =>
      match rmatch r1 k pos s with
      | Some x => Some x
      | None => rmatch r2 k pos s
      end
  | Eps => k pos s
  | Bol => if Nat.eqb pos 0 then k pos s else None
  | Eol =>
      (* at the end of the subject, or just before a final newline *)
      match s with
      | [] => k pos s
      | [c] => if N.eqb c LF then k pos s else None
      | _ => None
      end
  end.
End Matcher.

(** [re.match(r, s)]: a match that starts at position 0; the result is the
    end of the match. *)
Definition re_match (r : regex) (s : pystr) : option nat :=
  rmatch r (fun e _ => Some e) 0 s.

(** [re.search(r, s)]: the leftmost start position at which the pattern
    matches; the result is the span (start, end). *)
Fixpoint search_from (r : regex) (pos : nat) (s : pystr)
  : option (nat * nat) :=
  match rmatch r (fun e _ => Some e) pos s with
  | Some e => Some (pos, e)
  | None =>
      match s with
      | [] => None
      | _ :: s' => search_from r (S pos) s'
      end
  end.

Definition re_search (r : regex) (s : pystr) : option (nat * nat) :=
  search_from r 0 s.

(** [m.group(0)] for a match of [s] with the given span. *)
Definition group0 (s : pystr) (span : nat * nat) : pystr :=
  firstn (snd span - fst span) (skipn (fst span) s).

(** A sequence of items. *)
Fixpoint seq (l : list regex) : regex :=
  match l with
  | [] => Eps
  | r :: l' => Cat r (seq l')
  end.

Definition lit (c : N) : regex := Chr (N.eqb c).

(** ** Unicode-aware builtins, over a character database *)

Section Unicode.
(** The row of every code point from 128 on. *)
Variable ucd : N -> UnicodeChar.

Definition row (c : N) : UnicodeChar :=
  if N.ltb c 128 then ascii_row c else ucd c.

Definition cased (c : N) : bool := uc_cased (row c).
Definition case_ignorable (c : N) : bool := uc_case_ignorable (row c).

(** [\w] in a [str] pattern: alphanumeric, or the underscore. *)
Definition is_word (c : N) : bool := uc_alnum (row c) || N.eqb c 95.

(** *** [str.lower], [str.upper], [str.title] *)

Fixpoint skip_ignorable (s : pystr) : pystr :=
  match s with
  | [] => []
  | c :: s' => if case_ignorable c then skip_ignorable s' else s
  end.

(** U+03A3 is in the Final_Sigma context when a cased character precedes
    it and none follows it, case-ignorable characters being skipped on
    both sides.  [before] is the text before the sigma, nearest character
    first. *)
Definition final_sigma (before after : pystr) : bool :=
  match skip_ignorable before with
  | [] => false
  | c :: _ => cased c
  end
  && match skip_ignorable after with
     | [] => true
     | c :: _ => negb (cased c)
     end.

(** The lowercase of the character [c] in its context. *)
Definition lower_ucs4 (before : pystr) (c : N) (after : pystr) : pystr :=
  if N.eqb c 931
  then [if final_sigma before after then 962%N else 963%N]
  else full (uc_lower (row c)).

Fixpoint do_lower (before s : pystr) : pystr :=
  match s with
  | [] => []
  | c :: s' => lower_ucs4 before c s' ++ do_lower (c :: before) s'
  end.

Definition lower (s : pystr) : pystr := do_lower [] s.

Definition upper (s : pystr) : pystr :=
  flat_map (fun c => full (uc_upper (row c))) s.

Fixpoint do_title (previous_is_cased : bool) (before s : pystr) : pystr :=
  match s with
  | [] => []
  | c :: s' =>
      (if previous_is_cased then lower_ucs4 before c s'
       else full (uc_title (row c)))
      ++ do_title (cased c) (c :: before) s'
  end.

Definition title (s : pystr) : pystr := do_title false [] s.

(** *** Literals under [re.IGNORECASE] *)

(** The rows of the engine's table of extra case equivalences whose key
    is an ASCII letter: i and dotless i, k and the Kelvin sign, s and
    long s. *)
Definition ignorecase_fixes (lo : N) : list N :=
  if N.eqb lo 105 then [305%N]
  else if N.eqb lo 107 then [8490%N]
  else if N.eqb lo 115 then [383%N]
  else [].

(** An ASCII literal [av] of a pattern compiled with [re.IGNORECASE]: a
    letter accepts the characters whose simple lowercase is the lowercase
    of [av] or one of its extra equivalents; another character accepts
    itself only. *)
Definition ignorecase_accepts (av ch : N) : bool :=
  let lo := Ascii7.to_lower av in
  let x := uc_tolower (row ch) in
  N.eqb x lo || existsb (N.eqb x) (ignorecase_fixes lo).

Definition lit_i (av : N) : regex :=
  if Ascii7.is_letter av then Chr (ignorecase_accepts av) else lit av.

(** A literal word under [re.IGNORECASE]. *)
Definition word_i (w : pystr) : regex := seq (map lit_i w).

(** ** main.py: the email validator *)

(** The set [[\w\.-]]. *)
Definition word_dot_dash (c : N) : bool :=
  is_word c || N.eqb c 46 || N.eqb c 45.

(** [^[\w\.-]+@[\w\.-]+\.\w+$] *)
Definition email_pattern : regex :=
  seq [Bol; Rep1 word_dot_dash; lit 64; Rep1 word_dot_dash; lit 46;
       Rep1 is_word; Eol].

Definition validate_email (email : pystr) : bool :=
  match re_match email_pattern email with
  | Some _ => true
  | None => false
  end.

(** ** utils.py *)

Section Utils.
(** [list(set(l))]: the elements of [l] without repetition, in the
    iteration order of the set, which the language leaves open. *)
Variable list_set : list pystr -> list pystr.

Definition keywords : list pystr :=
  map str ["Python"; "Java"; "JavaScript"; "React"; "Node"; "AWS";
           "Docker"; "Kubernetes"; "SQL"; "Git"]%string.

Definition extract_tech_keywords (text : pystr) : list pystr :=
  let found :=
    filter (fun kw => contains (lower kw) (lower text)) keywords in
  list_set found.

(** [(developer|engineer|manager|analyst|architect)], re.IGNORECASE *)
Definition role_pattern : regex :=
  Alt (word_i (str "developer"))
 (Alt (word_i (str "engineer"))
 (Alt (word_i (str "manager"))
 (Alt (word_i (str "analyst"))
      (word_i (str "architect"))))).

Definition az_09 (c : N) : bool :=
  Ascii7.is_letter c || Ascii7.is_digit c.

(** [[a-zA-Z0-9_.+-]+@[a-zA-Z0-9-]+\.[a-zA-Z0-9-.]+] *)
Definition resume_email_pattern : regex :=
  seq [Rep1 (fun c => az_09 c || existsb (N.eqb c) [95; 46; 43; 45]%N);
       lit 64;
       Rep1 (fun c => az_09 c || N.eqb c 45);
       lit 46;
       Rep1 (fun c => az_09 c || existsb (N.eqb c) [45; 46]%N)].

Definition extract_skills_and_role_from_text (text : pystr)
  : list pystr * pystr * pystr :=
  let skills := extract_tech_keywords text in
  let role_match := re_search role_pattern text in
  let role :=
    match role_match with
    | Some m => title (group0 text m)
    | None => str "Software Engineer"
    end in
  let email_match := re_search resume_email_pattern text in
  let extracted_email :=
    match email_match with
    | Some m => group0 text m
    | None => []
    end in
  (skills, role, extracted_email).

(** The second component: the inferred role. *)
Definition inferred_role (text : pystr) : pystr :=
  snd (fst (extract_skills_and_role_from_text text)).

(** ** prompts.py *)

Definition generate_questions_prompt (skills : list pystr) (role : pystr)
  : pystr :=
  let skill_string := join (str ", ") skills in
  [LF]
  ++ str "You are an AI technical interviewer." ++ [LF; LF]
  ++ str "Generate **10 technical interview questions** for a candidate applying for the role of **"
  ++ role ++ str "** with the following skills: " ++ skill_string
  ++ str "." ++ [LF; LF]
  ++ str "For each question, also provide a **detailed, accurate answer**. Format your response exactly like this:"
  ++ [LF; LF]
  ++ str "Q1: <question 1>  " ++ [LF]
  ++ str "A1: <answer 1>" ++ [LF; LF]
  ++ str "Q2: <question 2>  " ++ [LF]
  ++ str "A2: <answer 2>" ++ [LF; LF]
  ++ str "...and so on up to Q10." ++ [LF].
End Utils.
End Unicode.

(** ** Exceptions

    The classes the modelled code can meet; every one of them derives from
    [Exception]. *)
Inductive exn_class : Type :=
| NumberParseException      (* phonenumbers *)
| HTTPError                 (* requests: raise_for_status *)
| ConnectionError           (* requests: the call itself *)
| JSONDecodeError           (* response.json() *)
| KeyError                  (* response.json()['choices']... *)
| SMTPException             (* smtplib *)
| AttributeError.           (* a missing key of st.session_state *)

Record exn : Type := mkExn {
  exn_type : exn_class;
  exn_text : pystr            (* str(e) *)
}.

Inductive result (A : Type) : Type :=
| Ok (a : A)
| Raise (e : exn).
Arguments Ok {A} a.
Arguments Raise {A} e.

(** ** main.py: the phone validator *)

Section Phone.
(** The library [phonenumbers]: its parsed-number objects, [parse] and
    [is_valid_number]. *)
Variable PhoneNumber : Type.
Variable phonenumbers_parse : pystr -> pystr -> result PhoneNumber.
Variable is_valid_number : PhoneNumber -> bool.

Definition validate_phone (phone country_code : pystr) : result bool :=
  match phonenumbers_parse phone country_code with
  | Ok number => Ok (is_valid_number number)
  | Raise e =>
      match exn_type e with
      | NumberParseException => Ok false
      | _ => Raise e
      end
  end.
End Phone.

(** ** main.py: session, candidate store and observable actions *)

Inductive Stage : Type := info_gathering | generate_questions | end_stage.

(** The dictionary built by both forms; the keys are fixed. *)
Record Candidate : Type := mkCandidate {
  c_name : pystr;
  c_email : pystr;
  c_phone : pystr;
  c_exp : Z;
  c_position : pystr;
  c_location : pystr;
  c_country : pystr;
  c_tech_stack : pystr;
  c_consent : pystr;
  c_timestamp : pystr
}.

(** [st.session_state]: each key is present or not. *)
Record Session : Type := mkSession {
  stage : option Stage;
  candidate_info : option Candidate;
  generated_questions : option pystr
}.

(** What a run of the script does to the outside, in order: the messages it
    shows, the calls of the collaborators, the writes of the key [stage]. *)
Inductive Event : Type :=
| st_warning (msg : pystr)
| st_error (msg : pystr)
| st_success (msg : pystr)
| st_markdown (msg : pystr)
| st_write (text : pystr)
| call_save_candidate_data (data : Candidate)
| call_delete_user_data (email : pystr)
| call_ask_gpt (prompt : pystr)
| call_send_email (to_email questions candidate_name : pystr)
| set_stage (s : Stage).

Record World : Type := mkWorld {
  session : Session;
  candidates : list Candidate;     (* the rows of the table, oldest first *)
  requests : nat                   (* requests sent to the remote model *)
}.

Definition is_ask (e : Event) : bool :=
  match e with call_ask_gpt _ => true | _ => false end.

Definition is_save (e : Event) : bool :=
  match e with call_save_candidate_data _ => true | _ => false end.

Definition is_set_stage (e : Event) : bool :=
  match e with set_stage _ => true | _ => false end.

Definition is_st_error (e : Event) : bool :=
  match e with st_error _ => true | _ => false end.

(** ** The script as a computation

    A run either reaches the end of the script, or is ended by [st.stop()],
    by [st.rerun()], or by an exception that nothing catches.  It returns
    the world it leaves and the events it produced, in order. *)
Inductive signal : Type :=
| Stop
| Rerun
| Uncaught (e : exn).

Definition script (A : Type) : Type :=
  World -> (A + signal) * World * list Event.

Definition ret {A} (a : A) : script A := fun w => (inl a, w, []).

Definition bind {A B} (m : script A) (k : A -> script B) : script B :=
  fun w =>
    match m w with
    | (inl a, w', ev) =>
        let '(r, w'', ev') := k a w' in (r, w'', ev ++ ev')
    | (inr sg, w', ev) => (inr sg, w', ev)
    end.

Declare Scope script_scope.
Delimit Scope script_scope with script.
Notation "x <- m ;; k" := (bind m (fun x => k))
  (at level 61, m at next level, right associativity) : script_scope.
Notation "m ;; k" := (bind m (fun _ => k))
  (at level 61, right associativity) : script_scope.

Definition outcome {A} (x : (A + signal) * World * list Event) : A + signal :=
  fst (fst x).
Definition final {A} (x : (A + signal) * World * list Event) : World :=
  snd (fst x).
Definition events {A} (x : (A + signal) * World * list Event) : list Event :=
  snd x.

Definition exit_with {A} (sg : signal) : script A := fun w => (inr sg, w, []).
Definition st_stop {A} : script A := exit_with Stop.
Definition st_rerun {A} : script A := exit_with Rerun.
Definition raise {A} (e : exn) : script A := exit_with (Uncaught e).

(** [try: m  except Exception as e: handler e] *)
Definition try_except {A} (m : script A) (handler : exn -> script A)
  : script A :=
  fun w =>
    match m w with
    | (inr (Uncaught e), w', ev) =>
        let '(r, w'', ev') := handler e w' in (r, w'', ev ++ ev')
    | r => r
    end.

Definition lift {A} (r : result A) : script A :=
  match r with
  | Ok a => ret a
  | Raise e => raise e
  end.

Definition emit (e : Event) : script unit := fun w => (inl tt, w, [e]).

Definition modify_session (f : Session -> Session) : script unit :=
  fun w => (inl tt, mkWorld (f (session w)) (candidates w) (requests w), []).

Definition read_session : script Session :=
  fun w => (inl (session w), w, []).

Definition assign_stage (s : Stage) : script unit :=
  bind (emit (set_stage s)) (fun _ =>
  modify_session (fun ss =>
    mkSession (Some s) (candidate_info ss) (generated_questions ss))).

Definition assign_candidate_info (c : Candidate) : script unit :=
  modify_session (fun ss =>
    mkSession (stage ss) (Some c) (generated_questions ss)).

Definition assign_generated_questions (q : pystr) : script unit :=
  modify_session (fun ss => mkSession (stage ss) (candidate_info ss) (Some q)).

(** [INSERT INTO candidates ...]: one more row. *)
Definition save_candidate_data (data : Candidate) : script unit :=
  fun w =>
    (inl tt, mkWorld (session w) (candidates w ++ [data]) (requests w),
     [call_save_candidate_data data]).

(** [DELETE FROM candidates WHERE email = ?] *)
Definition delete_user_data (email : pystr) : script unit :=
  fun w =>
    (inl tt,
     mkWorld (session w)
       (filter (fun c => negb (pystr_eqb (c_email c) email)) (candidates w))
       (requests w),
     [call_delete_user_data email]).

(** The state of the widgets when a run starts.  A text field that is
    prefilled returns its prefilled value until the user edits it. *)
Record Inputs : Type := mkInputs {
  (* the uploader and the form "Resume Info Confirmation" *)
  resume_text : option pystr;     (* extract_resume_text(resume_file) *)
  edited_role : option pystr;
  edited_email : option pystr;
  manual_consent : bool;
  submitted_resume_form : bool;
  (* the form "Candidate Form" *)
  in_name : pystr;
  in_email : pystr;
  in_phone : pystr;
  in_exp : Z;
  in_position : pystr;
  in_location : pystr;
  in_country : pystr;
  in_tech_stack : pystr;
  in_consent : bool;
  submitted : bool;
  (* the buttons of the question page *)
  regenerate_clicked : bool;
  email_me_clicked : bool;
  finish_clicked : bool;
  (* the deletion expander *)
  delete_email : pystr;
  delete_clicked : bool;
  (* datetime.now().strftime("%Y-%m-%d %H:%M:%S") *)
  now : pystr
}.

Definition text_input (edited : option pystr) (value : pystr) : pystr :=
  match edited with
  | Some v => v
  | None => value
  end.

(** U+274C, the cross mark of two warnings. *)
Definition cross_mark : N := 10060%N.

Section Main.
Variable ucd : N -> UnicodeChar.
Variable list_set : list pystr -> list pystr.
Variable PhoneNumber : Type.
Variable phonenumbers_parse : pystr -> pystr -> result PhoneNumber.
Variable is_valid_number : PhoneNumber -> bool.

(** The remote model: what it answers to the request number [n] (counted
    from 0 over the whole session) carrying the given prompt. *)
Variable remote_model : nat -> pystr -> result pystr.

(** The mail server: the outcome of sending a message to an address. *)
Variable smtp_send : pystr -> pystr -> result unit.

Variable ui : Inputs.

Local Open Scope script_scope.

(** [ask_gpt(prompt)]: one request; any failure of the request or of the
    decoding of the answer is an exception. *)
Definition ask_gpt (prompt : pystr) : script pystr :=
  fun w =>
    let n := requests w in
    let w' := mkWorld (session w) (candidates w) (S n) in
    match remote_model n prompt with
    | Ok text => (inl text, w', [call_ask_gpt prompt])
    | Raise e => (inr (Uncaught e), w', [call_ask_gpt prompt])
    end.

Definition send_email_with_questions
    (to_email questions candidate_name : pystr) : script bool :=
  let body_text :=
    str "Dear " ++ py_or candidate_name (str "Candidate") ++ str ","
    ++ [LF; LF] ++ str "Here are your generated interview questions:"
    ++ [LF; LF] ++ questions in
  emit (call_send_email to_email questions candidate_name) ;;
  try_except
    (lift (smtp_send to_email body_text) ;; ret true)
    (fun e =>
       emit (st_error (str "Failed to send email: " ++ exn_text e)) ;;
       ret false).

(** [if resume_file: ...], with the form "Resume Info Confirmation". *)
Definition resume_block : script unit :=
  match resume_text ui with
  | None => ret tt
  | Some text =>
      let '(skills, role, extracted_email) :=
        extract_skills_and_role_from_text ucd list_set text in
      let role := py_or role [] in
      let extracted_email := py_or extracted_email [] in
      emit (st_success (str "Resume processed.")) ;;
      emit (st_markdown (str "**Top Skills Detected:** `"
                         ++ join (str ", ") skills ++ str "`")) ;;
      emit (st_markdown (str "**Inferred Role:** `"
                         ++ (if truthy role then role
                             else str "Not detected") ++ str "`")) ;;
      let manual_role := text_input (edited_role ui) role in
      let manual_email := text_input (edited_email ui) extracted_email in
      if submitted_resume_form ui then
        if negb (manual_consent ui) then
          emit (st_warning (cross_mark :: str " GDPR consent required."))
        else if negb (validate_email ucd manual_email) then
          emit (st_warning (cross_mark :: str " Invalid email."))
        else
          assign_candidate_info
            {| c_name := []; c_email := manual_email; c_phone := [];
               c_exp := 0; c_position := manual_role; c_location := [];
               c_country := []; c_tech_stack := join (str ", ") skills;
               c_consent := str "yes"; c_timestamp := now ui |} ;;
          assign_stage generate_questions
      else ret tt
  end.

(** [if 'stage' not in st.session_state: ...] *)
Definition init_stage : script unit :=
  ss <- read_session ;;
  match stage ss with
  | None => assign_stage info_gathering
  | Some _ => ret tt
  end.

(** The body of [if submitted:] in the form "Candidate Form". *)
Definition candidate_form_submit : script unit :=
  if negb (py_all [in_name ui; in_email ui; in_phone ui; in_position ui;
                   in_location ui; in_tech_stack ui]) then
    emit (st_warning (str "Please fill all required fields."))
  else if negb (validate_email ucd (in_email ui)) then
    emit (st_warning (str "Enter a valid email."))
  else
    phone_ok <- lift (validate_phone phonenumbers_parse is_valid_number
                        (in_phone ui) (upper ucd (in_country ui))) ;;
    if negb phone_ok then
      emit (st_warning (str "Enter a valid phone number for your country."))
    else if negb (in_consent ui) then
      emit (st_warning (str "GDPR consent is required."))
    else
      let candidate :=
        {| c_name := in_name ui; c_email := in_email ui;
           c_phone := in_phone ui; c_exp := in_exp ui;
           c_position := in_position ui; c_location := in_location ui;
           c_country := in_country ui; c_tech_stack := in_tech_stack ui;
           c_consent := str "yes"; c_timestamp := now ui |} in
      assign_candidate_info candidate ;;
      save_candidate_data candidate ;;
      assign_stage generate_questions.

(** [if st.session_state.stage == 'info_gathering': ...] *)
Definition candidate_form_block : script unit :=
  ss <- read_session ;;
  match stage ss with
  | Some info_gathering =>
      if submitted ui then candidate_form_submit else ret tt
  | _ => ret tt
  end.

(** The read [st.session_state.candidate_info]. *)
Definition read_candidate_info : script Candidate :=
  ss <- read_session ;;
  match candidate_info ss with
  | Some data => ret data
  | None => raise (mkExn AttributeError (str "candidate_info"))
  end.

(** The read [st.session_state.generated_questions]. *)
Definition read_generated_questions : script pystr :=
  ss <- read_session ;;
  match generated_questions ss with
  | Some q => ret q
  | None => raise (mkExn AttributeError (str "generated_questions"))
  end.

(** The body of [if st.session_state.stage == 'generate_questions':]. *)
Definition generate_questions_page : script unit :=
  data <- read_candidate_info ;;
  let techs := extract_tech_keywords ucd list_set (c_tech_stack data) in
  let prompt := generate_questions_prompt techs (c_position data) in
  ss <- read_session ;;
  match generated_questions ss with
  | None =>
      try_except
        (q <- ask_gpt prompt ;; assign_generated_questions q)
        (fun e =>
           emit (st_error (str "Failed to generate questions: "
                           ++ exn_text e)) ;;
           st_stop)
  | Some _ => ret tt
  end ;;
  questions_text <- read_generated_questions ;;
  emit (st_success (str "Here are your interview questions:")) ;;
  emit (st_write questions_text) ;;
  (if regenerate_clicked ui then
     q <- ask_gpt prompt ;;
     assign_generated_questions q ;;
     st_rerun
   else ret tt) ;;
  (if email_me_clicked ui then
     sent <- send_email_with_questions (c_email data) questions_text
               (c_name data) ;;
     if sent then emit (st_success (str "Email sent successfully!"))
     else ret tt
   else ret tt) ;;
  (if finish_clicked ui then
     emit (st_success (str "Thank you! We'll be in touch.")) ;;
     assign_stage end_stage
   else ret tt).

Definition generate_questions_block : script unit :=
  ss <- read_session ;;
  match stage ss with
  | Some generate_questions => generate_questions_page
  | _ => ret tt
  end.

(** The expander "Request Data Deletion". *)
Definition deletion_block : script unit :=
  if delete_clicked ui then
    if validate_email ucd (delete_email ui) then
      delete_user_data (delete_email ui) ;;
      emit (st_success (str "Your data has been deleted."))
    else emit (st_warning (str "Enter a valid email."))
  else ret tt.

(** One run of the whole script, top to bottom.  [init_db()] creates the
    table when it is missing and touches no row. *)
Definition run_script : script unit :=
  resume_block ;;
  init_stage ;;
  candidate_form_block ;;
  generate_questions_block ;;
  deletion_block.
End Main.

(** ** Vocabulary of the properties *)

(** [needle] occurs in [hay] as a substring. *)
Definition is_substring (needle hay : pystr) : Prop :=
  exists before after, hay = before ++ needle ++ after.

(** What a pattern matches: [lang r pos pre rest] holds when [r], applied
    at position [pos] of a subject that continues with [pre ++ rest], can
    consume exactly [pre]. *)
Fixpoint lang (r : regex) (pos : nat) (pre rest : pystr) : Prop :=
  match r with
  | Chr p => exists c, pre = [c] /\ p c = true
  | Rep1 p => pre <> [] /\ forallb p pre = true
  | Cat r1 r2 =>
      exists pre1 pre2,
        pre = pre1 ++ pre2
        /\ lang r1 pos pre1 (pre2 ++ rest)
        /\ lang r2 (pos + List.length pre1) pre2 rest
  | Alt r1 r2 => lang r1 pos pre rest \/ lang r2 pos pre rest
  | Eps => pre = []
  | Bol => pre = [] /\ pos = 0
  | Eol => pre = [] /\ (rest = [] \/ rest = [LF])
  end.

(** The shape local@domain.tld: one or more word, dot or dash characters,
    an at sign, one or more word, dot or dash characters, a dot, one or
    more word characters. *)
Definition email_shape (ucd : N -> UnicodeChar) (s : pystr) : Prop :=
  exists local domain tld,
    s = local ++ [64%N] ++ domain ++ [46%N] ++ tld
    /\ local <> [] /\ domain <> [] /\ tld <> []
    /\ forallb (word_dot_dash ucd) local = true
    /\ forallb (word_dot_dash ucd) domain = true
    /\ forallb (is_word ucd) tld = true.

(** Two texts that differ in the case of ASCII letters only. *)
Definition same_up_to_ascii_case (t1 t2 : pystr) : Prop :=
  map Ascii7.to_lower t1 = map Ascii7.to_lower t2.

(** The same, character by character; a predicate, a pattern and a pair of
    continuations that cannot tell such characters apart. *)
Definition ceq (a b : N) : Prop := Ascii7.to_lower a = Ascii7.to_lower b.

Definition case_blind_pred (p : N -> bool) : Prop :=
  forall a b, ceq a b -> p a = p b.

Fixpoint case_blind (r : regex) : Prop :=
  match r with
  | Chr p | Rep1 p => case_blind_pred p
  | Cat r1 r2 | Alt r1 r2 => case_blind r1 /\ case_blind r2
  | Eps | Bol | Eol => True
  end.

Definition cont_agree {A} (k1 k2 : cont A) : Prop :=
  forall pos x1 x2, Forall2 ceq x1 x2 -> k1 pos x1 = k2 pos x2.

(** A computation all of whose events satisfy [P], and one that leaves a
    component [f] of the world as it found it. *)
Definition emits_only {A} (P : Event -> Prop) (m : script A) : Prop :=
  forall w, Forall P (events (m w)).

Definition keeps {A X} (f : World -> X) (m : script A) : Prop :=
  forall w, f (final (m w)) = f w.

(** The value of the field "confirm or edit your email" of the resume
    form: the email found in the resume, unless the user has edited it. *)
Definition confirmed_email (ucd : N -> UnicodeChar)
    (list_set : list pystr -> list pystr) (ui : Inputs) : pystr :=
  match resume_text ui with
  | Some text =>
      text_input (edited_email ui)
        (py_or (snd (extract_skills_and_role_from_text ucd list_set text)) [])
  | None => []
  end.

(** The record made of the values of the fields of the "Candidate Form". *)
Definition form_record (ui : Inputs) : Candidate :=
  {| c_name := in_name ui; c_email := in_email ui;
     c_phone := in_phone ui; c_exp := in_exp ui;
     c_position := in_position ui; c_location := in_location ui;
     c_country := in_country ui; c_tech_stack := in_tech_stack ui;
     c_consent := str "yes"; c_timestamp := now ui |}.

(** The gate of the intake: a call of [save_candidate_data] belongs to a
    submitted manual form with consent and a valid email, and carries the
    record of that form; a write of the stage [generate_questions] belongs
    to a submitted form, manual or resume, with consent and a valid email. *)
Definition gated (ucd : N -> UnicodeChar)
    (list_set : list pystr -> list pystr) (ui : Inputs) (e : Event) : Prop :=
  match e with
  | call_save_candidate_data c =>
      submitted ui = true /\ in_consent ui = true
      /\ validate_email ucd (in_email ui) = true /\ c = form_record ui
  | set_stage generate_questions =>
      (submitted_resume_form ui = true /\ manual_consent ui = true
       /\ validate_email ucd (confirmed_email ucd list_set ui) = true)
      \/ (submitted ui = true /\ in_consent ui = true
          /\ validate_email ucd (in_email ui) = true)
  | _ => True
  end.

(** ** Sample collaborators and inputs, used to exercise the theorems *)

(** A set that iterates in insertion order. *)
Definition insertion_order (l : list pystr) : list pystr :=
  nodup pystr_eq_dec l.

(** A stand-in for [phonenumbers]: a number is its digits; a string with
    another character does not parse; ten digits make a valid number. *)
Definition digits_parse (phone country_code : pystr) : result pystr :=
  if forallb Ascii7.is_digit phone && truthy phone then Ok phone
  else Raise (mkExn NumberParseException
                (str "The string supplied did not seem to be a phone number.")).

Definition ten_digits (number : pystr) : bool :=
  Nat.eqb (List.length number) 10.

(** A remote model that is out of reach. *)
Definition model_down (n : nat) (prompt : pystr) : result pystr :=
  Raise (mkExn ConnectionError (str "Max retries exceeded")).

(** A remote model that numbers its answers. *)
Definition model_up (n : nat) (prompt : pystr) : result pystr :=
  Ok (str "Q1: answer set " ++ [N.of_nat (48 + n)]).

Definition smtp_ok (to_email body : pystr) : result unit := Ok tt.

Definition no_input : Inputs :=
  {| resume_text := None; edited_role := None; edited_email := None;
     manual_consent := false; submitted_resume_form := false;
     in_name := []; in_email := []; in_phone := []; in_exp := 1;
     in_position := []; in_location := []; in_country := [];
     in_tech_stack := []; in_consent := false; submitted := false;
     regenerate_clicked := false; email_me_clicked := false;
     finish_clicked := false; delete_email := []; delete_clicked := false;
     now := str "2024-01-01 00:00:00" |}.

(** A filled "Candidate Form", submitted. *)
Definition jane_form (consent : bool) : Inputs :=
  {| resume_text := None; edited_role := None; edited_email := None;
     manual_consent := false; submitted_resume_form := false;
     in_name := str "Jane Doe"; in_email := str "jane@example.com";
     in_phone := str "4155552671"; in_exp := 5;
     in_position := str "Developer"; in_location := str "Berlin";
     in_country := str "us"; in_tech_stack := str "React, AWS, Docker";
     in_consent := consent; submitted := true;
     regenerate_clicked := false; email_me_clicked := false;
     finish_clicked := false; delete_email := []; delete_clicked := false;
     now := str "2024-01-01 00:00:00" |}.

(** An uploaded resume, confirmed with the prefilled role and email. *)
Definition jane_resume (consent : bool) : Inputs :=
  {| resume_text :=
       Some (str "Jane Doe, Senior React Developer, reachable at jane@example.com, skills: React, AWS, Docker");
     edited_role := None; edited_email := None;
     manual_consent := consent; submitted_resume_form := true;
     in_name := []; in_email := []; in_phone := []; in_exp := 1;
     in_position := []; in_location := []; in_country := [];
     in_tech_stack := []; in_consent := false; submitted := false;
     regenerate_clicked := false; email_me_clicked := false;
     finish_clicked := false; delete_email := []; delete_clicked := false;
     now := str "2024-01-01 00:00:00" |}.

(** A click on "Regenerate". *)
Definition click_regenerate : Inputs :=
  {| resume_text := None; edited_role := None; edited_email := None;
     manual_consent := false; submitted_resume_form := false;
     in_name := []; in_email := []; in_phone := []; in_exp := 1;
     in_position := []; in_location := []; in_country := [];
     in_tech_stack := []; in_consent := false; submitted := false;
     regenerate_clicked := true; email_me_clicked := false;
     finish_clicked := false; delete_email := []; delete_clicked := false;
     now := str "2024-01-01 00:00:00" |}.

Definition jane : Candidate :=
  {| c_name := str "Jane Doe"; c_email := str "jane@example.com";
     c_phone := str "4155552671"; c_exp := 5;
     c_position := str "Developer"; c_location := str "Berlin";
     c_country := str "us"; c_tech_stack := str "React, AWS, Docker";
     c_consent := str "yes"; c_timestamp := str "2024-01-01 00:00:00" |}.

(** A new session, and sessions on the question page without and with
    cached questions. *)
Definition fresh_world : World :=
  mkWorld (mkSession None None None) [] 0.

Definition world_at (st : Stage) (q : option pystr) (n : nat) : World :=
  mkWorld (mkSession (Some st) (Some jane) q) [jane] n.

(** ** Further parts of the source *)

(** *** utils.py: the text of an uploaded resume *)

(** The uploaded file, with what the two readers make of it:
    [PdfReader(file).pages] with [extract_text()] of every page ([None]
    for a page without text), and [file.read().decode("utf-8")]. *)
Record UploadedFile : Type := mkUploadedFile {
  file_name : pystr;
  pdf_pages : result (list (option pystr));
  decoded : result pystr
}.

(** [s.endswith(suffix)] *)
Definition endswith (suffix s : pystr) : bool :=
  startswith (rev suffix) (rev s).

(** [page.extract_text() or ""] *)
Definition page_text (page : option pystr) : pystr :=
  match page with
  | Some t => py_or t []
  | None => []
  end.

Definition extract_resume_text (file : UploadedFile) : result pystr :=
  if endswith (str ".pdf") (file_name file) then
    match pdf_pages file with
    | Ok pages => Ok (join (str " ") (map page_text pages))
    | Raise e => Raise e
    end
  else decoded file.

(** *** main.py: the content of the two PDF documents *)

(** The ASCII characters that [str.strip] removes: tab to carriage
    return, the four separators 28 to 31, and the space. *)
Definition ascii_space (c : N) : bool :=
  (N.leb 9 c && N.leb c 13) || (N.leb 28 c && N.leb c 31) || N.eqb c 32.

Section Paragraphs.
(** [str.isspace] for the code points from 128 on. *)
Variable unicode_space : N -> bool.

Definition is_space (c : N) : bool :=
  if N.ltb c 128 then ascii_space c else unicode_space c.

Fixpoint lstrip (s : pystr) : pystr :=
  match s with
  | [] => []
  | c :: s' => if is_space c then lstrip s' else s
  end.

Definition rstrip (s : pystr) : pystr := rev (lstrip (rev s)).

(** [s.strip()] *)
Definition strip (s : pystr) : pystr := rstrip (lstrip s).

(** [s.split("\n")]: the pieces between the newlines; one more piece than
    there are newlines. *)
Fixpoint split_lines (s : pystr) : list pystr :=
  match s with
  | [] => [[]]
  | c :: s' =>
      if N.eqb c LF then [] :: split_lines s'
      else
        match split_lines s' with
        | [] => [[c]]
        | l :: ls => (c :: l) :: ls
        end
  end.

(** The flowables of reportlab that the documents are made of. *)
Inductive ParagraphStyle : Type := Title | Normal.

Inductive Flowable : Type :=
| Paragraph (text : pystr) (style : ParagraphStyle)
| Spacer (width height : Z).

(** The loop shared by the two builders: a paragraph and a spacer for
    every line that is not blank. *)
Fixpoint line_elements (lines : list pystr) : list Flowable :=
  match lines with
  | [] => []
  | q :: rest =>
      if truthy (strip q)
      then Paragraph (strip q) Normal :: Spacer 1 6 :: line_elements rest
      else line_elements rest
  end.

Definition pdf_heading : list Flowable :=
  [Paragraph (str "Generated Interview Questions") Title; Spacer 1 12].

(** The elements built by [send_email_with_questions]. *)
Definition email_pdf_elements (questions : pystr) : list Flowable :=
  pdf_heading ++ line_elements (split_lines questions).

(** The elements built by [generate_pdf_bytes]. *)
Definition generate_pdf_elements (questions_text : pystr) : list Flowable :=
  pdf_heading ++ line_elements (split_lines (strip questions_text)).
End Paragraphs.

(** *** A session: one run of the script after another *)

Section Sessions.
Variable ucd : N -> UnicodeChar.
Variable list_set : list pystr -> list pystr.
Variable PhoneNumber : Type.
Variable phonenumbers_parse : pystr -> pystr -> result PhoneNumber.
Variable is_valid_number : PhoneNumber -> bool.
Variable remote_model : nat -> pystr -> result pystr.
Variable smtp_send : pystr -> pystr -> result unit.

(** The world after the runs triggered by the given interactions, the
    first one first. *)
Fixpoint run_session (uis : list Inputs) (w : World) : World :=
  match uis with
  | [] => w
  | ui :: rest =>
      run_session rest
        (final (run_script ucd list_set phonenumbers_parse is_valid_number
                  remote_model smtp_send ui w))
  end.
End Sessions.

(** The session holds a candidate once it has left [info_gathering], and
    a candidate it holds has given consent and has a valid email. *)
Definition session_ok (ucd : N -> UnicodeChar) (s : Session) : Prop :=
  (stage s = Some generate_questions \/ stage s = Some end_stage ->
   candidate_info s <> None)
  /\ (forall c, candidate_info s = Some c ->
        validate_email ucd (c_email c) = true /\ c_consent c = str "yes").

Definition left_info_gathering (s : Session) : Prop :=
  stage s = Some generate_questions \/ stage s = Some end_stage.

Definition maintains {A} (I : World -> Prop) (m : script A) : Prop :=
  forall w, I w -> I (final (m w)).

Definition is_delete (e : Event) : bool :=
  match e with call_delete_user_data _ => true | _ => false end.

Definition world_ok (ucd : N -> UnicodeChar) (w : World) : Prop :=
  session_ok ucd (session w).

Definition world_left (w : World) : Prop := left_info_gathering (session w).



(** The number of requests that a run sends to the remote model. *)
Definition asks {A} (x : (A + signal) * World * list Event) : nat :=
  List.length (filter is_ask (events x)).

(** [m] sends at most [b] requests from a world that satisfies [I], and
    leaves a world that satisfies [I]. *)
Definition budget {A} (I : World -> Prop) (b : nat) (m : script A) : Prop :=
  forall w, I w -> asks (m w) <= b /\ I (final (m w)).

(** Either nothing is said of the session, or it holds the cached
    questions [q]. *)
Definition cache_is (q : option pystr) (w : World) : Prop :=
  match q with
  | None => True
  | Some _ => generated_questions (session w) = q
  end.

(** Relative to the table [rows0] at the start of a run: every row is an
    old row or the record of the form, and an old row is missing only if
    its email is the one given for deletion. *)
Definition table_ok (ui : Inputs) (rows0 : list Candidate) (w : World)
  : Prop :=
  incl (candidates w) (rows0 ++ [form_record ui])
  /\ forall c, In c rows0 -> c_email c <> delete_email ui ->
               In c (candidates w).

(** Two characters that are equal, or both a lowercase sigma; a character
    that is no lowercase sigma. *)
Definition sigma_like (x y : N) : Prop :=
  x = y \/ ((x = 962%N \/ x = 963%N) /\ (y = 962%N \/ y = 963%N)).

Definition not_sigma (c : N) : bool :=
  negb (N.eqb c 962) && negb (N.eqb c 963).

Definition is_ascii (c : N) : bool := N.ltb c 128.

Definition differs_from (c x : N) : bool := negb (N.eqb x c).

(** The three sets of the pattern of the resume email, and the shape the
    pattern describes. *)
Definition local_char (c : N) : bool :=
  az_09 c || existsb (N.eqb c) [95; 46; 43; 45]%N.
Definition domain_char (c : N) : bool := az_09 c || N.eqb c 45.
Definition suffix_char (c : N) : bool :=
  az_09 c || existsb (N.eqb c) [45; 46]%N.

Definition resume_email_shape (e : pystr) : Prop :=
  exists l d t,
    e = l ++ [64%N] ++ d ++ [46%N] ++ t
    /\ l <> [] /\ d <> [] /\ t <> []
    /\ forallb local_char l = true
    /\ forallb domain_char d = true
    /\ forallb suffix_char t = true.

(** The third component: the email found in the resume. *)
Definition inferred_email (ucd : N -> UnicodeChar)
    (list_set : list pystr -> list pystr) (text : pystr) : pystr :=
  snd (extract_skills_and_role_from_text ucd list_set text).

(** The role words of the pattern, the role returned for each, and a
    part of a text that spells a word, whatever the case of its letters. *)
Definition role_words : list pystr :=
  map str ["developer"; "engineer"; "manager"; "analyst"; "architect"]%string.

Definition capitalize (w : pystr) : pystr :=
  match w with
  | [] => []
  | c :: rest => Ascii7.to_upper c :: rest
  end.

Definition spells (w pre : pystr) : Prop := map Ascii7.to_lower pre = w.

(** Appending [c] to the last piece of a split text. *)
Fixpoint snoc_last (pieces : list pystr) (c : N) : list pystr :=
  match pieces with
  | [] => []
  | [l] => [l ++ [c]]
  | l :: rest => l :: snoc_last rest c
  end.

(** A click on "Delete My Data", and an uploaded PDF of two pages, the
    first one without text. *)
Definition click_delete : Inputs :=
  {| resume_text := None; edited_role := None; edited_email := None;
     manual_consent := false; submitted_resume_form := false;
     in_name := []; in_email := []; in_phone := []; in_exp := 1;
     in_position := []; in_location := []; in_country := [];
     in_tech_stack := []; in_consent := false; submitted := false;
     regenerate_clicked := false; email_me_clicked := false;
     finish_clicked := false; delete_email := str "jane@example.com";
     delete_clicked := true; now := str "2024-01-01 00:00:00" |}.

Definition two_page_pdf : UploadedFile :=
  {| file_name := str "resume.pdf";
     pdf_pages := Ok [None; Some (str "Skills: React and Docker")];
     decoded := Ok [] |}.

(** * Properties *)

(** ** The matcher finds a match exactly when the pattern has one *)

Lemma rep1_sound A (p : N -> bool) (k : cont A) s :
  forall pos x,
    rep1 p k pos s = Some x ->
    exists pre rest,
      s = pre ++ rest /\ pre <> [] /\ forallb p pre = true
      /\ k (pos + List.length pre) rest = Some x.
Proof.
  induction s as [|c s IH]; intros pos x H; simpl in H; [discriminate|].
  destruct (p c) eqn:Hc; [|discriminate].
  destruct (rep1 p k (S pos) s) as [r|] eqn:Hr.
  - injection H as <-.
    destruct (IH _ _ Hr) as (pre & rest & -> & _ & Hp & Hk).
    exists (c :: pre), rest. simpl. rewrite Hc, Hp.
    repeat split; try discriminate.
    now rewrite Nat.add_succ_r.
  - exists [c], s. simpl. rewrite Hc.
    repeat split; try discriminate.
    now rewrite Nat.add_1_r.
Qed.

Lemma rep1_complete A (p : N -> bool) (k : cont A) pre :
  forall rest pos x,
    pre <> [] -> forallb p pre = true ->
    k (pos + List.length pre) rest = Some x ->
    exists y, rep1 p k pos (pre ++ rest) = Some y.
Proof.
  induction pre as [|c pre IH]; intros rest pos x Hne Hp Hk; [easy|].
  simpl in Hp. apply andb_true_iff in Hp as [Hc Hp].
  simpl. rewrite Hc.
  destruct pre as [|d pre].
  - simpl in *. rewrite Nat.add_1_r in Hk.
    destruct (rep1 p k (S pos) rest); eauto.
  - assert (Hk' : k (S pos + List.length (d :: pre)) rest = Some x).
    { simpl in *. now rewrite Nat.add_succ_r in Hk. }
    destruct (IH rest (S pos) x ltac:(discriminate) Hp Hk') as [y ->].
    eauto.
Qed.

Lemma rmatch_sound A (r : regex) :
  forall (k : cont A) pos s x,
    rmatch r k pos s = Some x ->
    exists pre rest,
      s = pre ++ rest /\ lang r pos pre rest
      /\ k (pos + List.length pre) rest = Some x.
Proof.
  induction r as [p|p|r1 IH1 r2 IH2|r1 IH1 r2 IH2| | | ];
    intros k pos s x H; simpl in H.
  - destruct s as [|c s]; [discriminate|].
    destruct (p c) eqn:Hc; [|discriminate].
    exists [c], s. simpl. rewrite Nat.add_1_r. eauto.
  - apply rep1_sound in H as (pre & rest & -> & Hne & Hp & Hk).
    exists pre, rest. simpl. auto.
  - apply IH1 in H as (pre1 & rest1 & -> & H1 & H).
    apply IH2 in H as (pre2 & rest & -> & H2 & Hk).
    exists (pre1 ++ pre2), rest. rewrite <- app_assoc. split; [easy|].
    split.
    + simpl. eauto.
    + now rewrite length_app, Nat.add_assoc.
  - destruct (rmatch r1 k pos s) as [y|] eqn:H1.
    + injection H as <-.
      apply IH1 in H1 as (pre & rest & -> & Hl & Hk).
      exists pre, rest. simpl. auto.
    + apply IH2 in H as (pre & rest & -> & Hl & Hk).
      exists pre, rest. simpl. auto.
  - exists [], s. simpl. now rewrite Nat.add_0_r.
  - destruct (Nat.eqb pos 0) eqn:Hpos; [|discriminate].
    apply Nat.eqb_eq in Hpos.
    exists [], s. simpl. now rewrite Nat.add_0_r.
  - exists [], s. simpl. rewrite Nat.add_0_r.
    destruct s as [|c [|d s]]; try discriminate; auto.
    destruct (N.eqb c LF) eqn:Hc; [|discriminate].
    apply N.eqb_eq in Hc as ->. auto.
Qed.

Lemma rmatch_complete A (r : regex) :
  forall (k : cont A) pos pre rest x,
    lang r pos pre rest ->
    k (pos + List.length pre) rest = Some x ->
    exists y, rmatch r k pos (pre ++ rest) = Some y.
Proof.
  induction r as [p|p|r1 IH1 r2 IH2|r1 IH1 r2 IH2| | | ];
    intros k pos pre rest x Hl Hk; simpl in Hl.
  - destruct Hl as (c & -> & Hc). simpl. rewrite Hc.
    simpl in Hk. rewrite Nat.add_1_r in Hk. eauto.
  - destruct Hl as [Hne Hp]. simpl. eapply rep1_complete; eauto.
  - destruct Hl as (pre1 & pre2 & -> & H1 & H2).
    rewrite length_app, Nat.add_assoc in Hk.
    destruct (IH2 k _ _ _ _ H2 Hk) as [y Hy].
    rewrite <- app_assoc. simpl. eapply IH1; eauto.
  - simpl. destruct Hl as [Hl|Hl].
    + destruct (IH1 k _ _ _ _ Hl Hk) as [y ->]. eauto.
    + destruct (rmatch r1 k pos (pre ++ rest)); eauto.
  - subst pre. simpl in *. rewrite Nat.add_0_r in Hk. eauto.
  - destruct Hl as [-> ->]. simpl in *. eauto.
  - destruct Hl as [-> Hr]. simpl in *. rewrite Nat.add_0_r in Hk.
    destruct Hr as [-> | ->]; simpl; eauto.
Qed.

(** ** The email validator *)

Section EmailValidator.
Variable ucd : N -> UnicodeChar.

Lemma email_pattern_lang pre rest :
  lang (email_pattern ucd) 0 pre rest <->
  email_shape ucd pre /\ (rest = [] \/ rest = [LF]).
Proof.
  unfold email_pattern, email_shape, lit. cbn [seq lang]. split.
  - intros (p0 & q0 & -> & [-> _] & p1 & q1 & -> & [Hn1 Hp1]
            & p2 & q2 & -> & (c2 & -> & Hc2)
            & p3 & q3 & -> & [Hn3 Hp3] & p4 & q4 & -> & (c4 & -> & Hc4)
            & p5 & q5 & -> & [Hn5 Hp5] & p6 & q6 & -> & [-> Hrest] & ->).
    apply N.eqb_eq in Hc2, Hc4. subst c2 c4.
    split; [|exact Hrest].
    exists p1, p3, p5. simpl. rewrite !app_nil_r. auto 10.
  - intros [(l & d & t & -> & Hl & Hd & Ht & Hpl & Hpd & Hpt) Hrest].
    exists [], (l ++ [64%N] ++ d ++ [46%N] ++ t).
    split; [easy|]. split; [easy|].
    exists l, ([64%N] ++ d ++ [46%N] ++ t).
    split; [easy|]. split; [easy|].
    exists [64%N], (d ++ [46%N] ++ t).
    split; [easy|]. split; [now exists 64%N|].
    exists d, ([46%N] ++ t). split; [easy|]. split; [easy|].
    exists [46%N], t. split; [easy|]. split; [now exists 46%N|].
    exists t, []. split; [now rewrite app_nil_r|]. split; [easy|].
    exists [], []. auto.
Qed.

(** The validator accepts the strings of the shape local@domain.tld and
    the same strings followed by one newline, and nothing else. *)
Theorem validate_email_iff s :
  validate_email ucd s = true <->
  email_shape ucd s \/ exists s', s = s' ++ [LF] /\ email_shape ucd s'.
Proof.
  unfold validate_email, re_match. split.
  - destruct (rmatch _ _ _ _) eqn:H; [intros _|discriminate].
    apply rmatch_sound in H as (pre & rest & -> & Hl & _).
    apply email_pattern_lang in Hl as [Hs [-> | ->]].
    + left. now rewrite app_nil_r.
    + right. eauto.
  - intros [Hs | (s' & -> & Hs)].
    + destruct (@rmatch_complete nat (email_pattern ucd)
                  (fun e _ => Some e) 0 s [] (0 + List.length s))
        as [y Hy]; [apply email_pattern_lang; auto|reflexivity|].
      rewrite app_nil_r in Hy. now rewrite Hy.
    + destruct (@rmatch_complete nat (email_pattern ucd)
                  (fun e _ => Some e) 0 s' [LF] (0 + List.length s'))
        as [y Hy]; [apply email_pattern_lang; auto|reflexivity|].
      now rewrite Hy.
Qed.

Lemma email_shape_last s c :
  email_shape ucd (s ++ [c]) -> is_word ucd c = true.
Proof.
  intros (l & d & t & E & _ & _ & Ht & _ & _ & Hpt).
  destruct (exists_last Ht) as (t' & x & ->).
  rewrite forallb_app in Hpt. simpl in Hpt.
  apply andb_true_iff in Hpt as [_ Hx].
  rewrite andb_true_r in Hx.
  replace (l ++ [64%N] ++ d ++ [46%N] ++ t' ++ [x])
    with ((l ++ [64%N] ++ d ++ [46%N] ++ t') ++ [x]) in E
    by now rewrite <- !app_assoc.
  apply app_inj_tail in E as [_ ->]. exact Hx.
Qed.

Lemma email_shape_not_empty : ~ email_shape ucd [].
Proof.
  intros (l & d & t & E & Hl & _). destruct l; [easy|discriminate].
Qed.

Lemma email_shape_has_at s :
  email_shape ucd s -> In 64%N s /\ In 46%N s.
Proof.
  intros (l & d & t & -> & _). split.
  - apply in_or_app. right. now left.
  - apply in_or_app. right. simpl. right.
    apply in_or_app. right. now left.
Qed.

(** C7: the validator accepts every string of the shape
    local@domain.tld, and rejects the empty string and every string
    without an at sign or without a dot; but it does not reject every
    other string: it accepts "a@b.c" followed by a newline, which is not
    of the shape.  The pattern ends in [$], which also matches just
    before a final newline. *)
Theorem validate_email_accepts_trailing_newline :
  (forall s, email_shape ucd s -> validate_email ucd s = true)
  /\ validate_email ucd [] = false
  /\ (forall s, ~ In 64%N s \/ ~ In 46%N s -> validate_email ucd s = false)
  /\ validate_email ucd (str "a@b.c" ++ [LF]) = true
  /\ ~ email_shape ucd (str "a@b.c" ++ [LF]).
Proof.
  split; [|split; [|split; [|split]]].
  - intros s Hs. apply validate_email_iff. now left.
  - reflexivity.
  - intros s Hs. destruct (validate_email ucd s) eqn:E; [|reflexivity].
    exfalso. apply validate_email_iff in E as [E | (s' & -> & E)];
      apply email_shape_has_at in E as [H1 H2].
    + tauto.
    + destruct Hs as [Hs | Hs]; apply Hs, in_or_app; auto.
  - reflexivity.
  - intros H. apply email_shape_last in H. discriminate H.
Qed.
End EmailValidator.

(** ** Skill detection *)

Lemma startswith_iff p :
  forall s, startswith p s = true <-> exists rest, s = p ++ rest.
Proof.
  induction p as [|a p IH]; intros s; simpl.
  - split; eauto.
  - destruct s as [|b s].
    + split; [discriminate|]. now intros [rest H].
    + rewrite andb_true_iff, N.eqb_eq, IH. split.
      * intros [-> [rest ->]]. eauto.
      * intros [rest H]. injection H as -> ->. eauto.
Qed.

Lemma contains_iff needle :
  forall hay, contains needle hay = true <-> is_substring needle hay.
Proof.
  unfold is_substring.
  induction hay as [|c hay IH]; simpl.
  - rewrite orb_false_r, startswith_iff. split.
    + intros [rest H]. exists [], rest. exact H.
    + intros (b & a & H). symmetry in H.
      apply app_eq_nil in H as [-> H]. exists a. now symmetry.
  - rewrite orb_true_iff, startswith_iff, IH. split.
    + intros [[rest H] | (b & a & ->)].
      * exists [], rest. exact H.
      * exists (c :: b), a. reflexivity.
    + intros (b & a & H). destruct b as [|x b].
      * left. eauto.
      * injection H as -> ->. right. eauto.
Qed.

Section SkillDetection.
Variable ucd : N -> UnicodeChar.
Variable list_set : list pystr -> list pystr.

(** What Python guarantees of [list(set(l))]: the elements of [l], each
    once. *)
Hypothesis list_set_In : forall l x, In x (list_set l) <-> In x l.
Hypothesis list_set_NoDup : forall l, NoDup (list_set l).

(** C5: skill detection returns exactly the terms of the vocabulary of
    ten whose lowercase occurs as a substring of the lowercased text, each
    once; it is a total function of the text, so two calls on the same
    text give the same result. *)
Theorem extract_tech_keywords_spec (text : pystr) :
  let skills := extract_tech_keywords ucd list_set text in
  List.length keywords = 10
  /\ NoDup skills
  /\ (forall kw,
        In kw skills <->
        In kw keywords
        /\ is_substring (lower ucd kw) (lower ucd text))
  /\ extract_tech_keywords ucd list_set text = skills.
Proof.
  unfold extract_tech_keywords. cbv zeta.
  split; [reflexivity|]. split; [apply list_set_NoDup|].
  split; [|reflexivity].
  intros kw. rewrite list_set_In, filter_In, contains_iff. reflexivity.
Qed.
End SkillDetection.

(** ** The phone validator *)

Section PhoneValidator.
Variable PhoneNumber : Type.
Variable phonenumbers_parse : pystr -> pystr -> result PhoneNumber.
Variable is_valid_number : PhoneNumber -> bool.

(** The contract of the library: [parse] signals an invalid country code
    or an unparseable string by [NumberParseException], and raises
    nothing else. *)
Hypothesis parse_raises :
  forall phone country_code e,
    phonenumbers_parse phone country_code = Raise e ->
    exn_type e = NumberParseException.

(** C8: for every phone string and country code the validator returns a
    boolean and raises nothing; the boolean is false when the library
    rejects the country code or the string, and when the parsed number
    is not valid. *)
Theorem validate_phone_total (phone country_code : pystr) :
  exists b,
    validate_phone phonenumbers_parse is_valid_number phone country_code
    = Ok b
    /\ (forall e, phonenumbers_parse phone country_code = Raise e ->
                  b = false)
    /\ (forall number,
          phonenumbers_parse phone country_code = Ok number ->
          b = is_valid_number number).
Proof.
  unfold validate_phone.
  destruct (phonenumbers_parse phone country_code) as [number|e] eqn:E.
  - exists (is_valid_number number). repeat split; try discriminate.
    intros n [= ->]. reflexivity.
  - rewrite (parse_raises E). exists false. repeat split; discriminate.
Qed.
End PhoneValidator.

(** ** Role inference *)

Lemma search_from_sound r :
  forall s pos st e,
    search_from r pos s = Some (st, e) ->
    exists skipped pre rest,
      s = skipped ++ pre ++ rest
      /\ st = pos + List.length skipped
      /\ e = st + List.length pre
      /\ lang r st pre rest.
Proof.
  induction s as [|c s IH]; intros pos st e H; simpl in H.
  - destruct (rmatch r _ pos []) eqn:Hm; [|discriminate].
    injection H as <- <-.
    apply rmatch_sound in Hm as (pre & rest & E & Hl & [= <-]).
    exists [], pre, rest. simpl. rewrite Nat.add_0_r. auto.
  - destruct (rmatch r _ pos (c :: s)) eqn:Hm.
    + injection H as <- <-.
      apply rmatch_sound in Hm as (pre & rest & E & Hl & [= <-]).
      exists [], pre, rest. simpl. rewrite Nat.add_0_r. auto.
    + apply IH in H as (sk & pre & rest & -> & -> & -> & Hl).
      exists (c :: sk), pre, rest. simpl.
      rewrite Nat.add_succ_r. auto.
Qed.

Lemma search_from_complete r :
  forall skipped pos pre rest,
    lang r (pos + List.length skipped) pre rest ->
    exists m, search_from r pos (skipped ++ pre ++ rest) = Some m.
Proof.
  induction skipped as [|c sk IH]; intros pos pre rest Hl.
  - simpl in Hl. rewrite Nat.add_0_r in Hl.
    destruct (@rmatch_complete nat r (fun e _ => Some e) pos pre rest
                (pos + List.length pre) Hl eq_refl) as [y Hy].
    simpl. destruct (pre ++ rest); simpl; rewrite Hy; eauto.
  - simpl. destruct (rmatch r _ pos (c :: sk ++ pre ++ rest)); [eauto|].
    apply IH. simpl in Hl. now rewrite Nat.add_succ_r in Hl.
Qed.

Lemma group0_span (skipped pre rest : pystr) :
  group0 (skipped ++ pre ++ rest)
    (List.length skipped, List.length skipped + List.length pre) = pre.
Proof.
  unfold group0. simpl.
  rewrite skipn_app, Nat.sub_diag, skipn_all. simpl.
  replace (List.length skipped + List.length pre - List.length skipped)
    with (List.length pre + 0) by lia.
  rewrite firstn_app_2. simpl. apply app_nil_r.
Qed.

Section RoleInference.
Variable ucd : N -> UnicodeChar.
Variable list_set : list pystr -> list pystr.

Lemma lit_i_is_chr av : exists p, lit_i ucd av = Chr p.
Proof. unfold lit_i, lit. destruct (Ascii7.is_letter av); eauto. Qed.

Lemma lang_word_i_length w :
  forall pos pre rest,
    lang (word_i ucd w) pos pre rest -> List.length pre = List.length w.
Proof.
  unfold word_i.
  induction w as [|av w IH]; intros pos pre rest H; simpl in H.
  - now subst.
  - destruct H as (p1 & p2 & -> & H1 & H2).
    destruct (lit_i_is_chr av) as [p Hp]. rewrite Hp in H1.
    simpl in H1. destruct H1 as (c & -> & _).
    simpl. f_equal. eauto.
Qed.

Lemma lang_role_pattern_nonempty pos pre rest :
  lang (role_pattern ucd) pos pre rest -> pre <> [].
Proof.
  unfold role_pattern. cbn [lang].
  intros H Hnil. subst pre.
  repeat destruct H as [H|H]; apply lang_word_i_length in H; discriminate H.
Qed.

Lemma title_nonempty s : s <> [] -> title ucd s <> [].
Proof.
  destruct s as [|c s]; [easy|]. intros _. unfold title. simpl.
  discriminate.
Qed.

(** C9: the role returned by [extract_skills_and_role_from_text] is never
    the empty string; when no role word occurs in the text, whatever the
    case of its letters, the role is the default "Software Engineer",
    put in by the function itself. *)
Theorem inferred_role_never_absent (text : pystr) :
  inferred_role ucd list_set text <> []
  /\ ((forall before w after,
         text = before ++ w ++ after ->
         ~ lang (role_pattern ucd) (List.length before) w after) ->
      inferred_role ucd list_set text = str "Software Engineer").
Proof.
  unfold inferred_role, extract_skills_and_role_from_text. cbn [fst snd].
  unfold re_search.
  destruct (search_from (role_pattern ucd) 0 text) as [[st e]|] eqn:H.
  - apply search_from_sound in H as (sk & pre & rest & -> & -> & -> & Hl).
    change (0 + List.length sk) with (List.length sk) in *.
    rewrite group0_span. split.
    + apply title_nonempty. exact (lang_role_pattern_nonempty Hl).
    + intros Hno. exfalso. exact (Hno sk pre rest eq_refl Hl).
  - split; [discriminate|reflexivity].
Qed.
End RoleInference.

(** ** Role inference does not see the case of ASCII letters *)

Ltac ascii_cases :=
  unfold ceq, Ascii7.to_lower, Ascii7.to_upper, Ascii7.is_letter,
    Ascii7.is_upper, Ascii7.is_lower, Ascii7.case_ignorable in *;
  cbn [existsb] in *;
  repeat match goal with
    | H : context [N.leb ?a ?b] |- _ => destruct (N.leb_spec a b)
    | |- context [N.leb ?a ?b] => destruct (N.leb_spec a b)
    | H : context [N.eqb ?a ?b] |- _ => destruct (N.eqb_spec a b)
    | |- context [N.eqb ?a ?b] => destruct (N.eqb_spec a b)
    | H : context [N.ltb ?a ?b] |- _ => destruct (N.ltb_spec a b)
    | |- context [N.ltb ?a ?b] => destruct (N.ltb_spec a b)
    end;
  cbn [andb orb negb] in *; try discriminate; try reflexivity; try lia.

Lemma ceq_cases a b :
  ceq a b ->
  a = b \/ (Ascii7.is_letter a = true /\ Ascii7.is_letter b = true).
Proof. intros H. ascii_cases; auto; left; lia. Qed.

Lemma letter_to_upper a b :
  Ascii7.is_letter a = true -> Ascii7.is_letter b = true -> ceq a b ->
  Ascii7.to_upper a = Ascii7.to_upper b.
Proof. intros Ha Hb H. ascii_cases. Qed.

Lemma letter_facts c :
  Ascii7.is_letter c = true ->
  N.ltb c 128 = true /\ Ascii7.case_ignorable c = false
  /\ N.eqb c 931 = false /\ N.eqb c LF = false.
Proof. intros H. unfold LF. ascii_cases; auto. Qed.

Lemma same_up_to_ascii_case_Forall2 t1 :
  forall t2, same_up_to_ascii_case t1 t2 <-> Forall2 ceq t1 t2.
Proof.
  unfold same_up_to_ascii_case.
  induction t1 as [|a t1 IH]; intros [|b t2]; simpl; split; intros H;
    try discriminate; try constructor; try solve [inversion H].
  - injection H as H _. exact H.
  - injection H as _ H. now apply IH.
  - inversion H; subst. f_equal; [assumption|now apply IH].
Qed.

Lemma Forall2_firstn A B (R : A -> B -> Prop) n :
  forall l1 l2, Forall2 R l1 l2 -> Forall2 R (firstn n l1) (firstn n l2).
Proof.
  induction n as [|n IH]; intros l1 l2 H; simpl; [constructor|].
  destruct H; constructor; auto.
Qed.

Lemma Forall2_skipn A B (R : A -> B -> Prop) n :
  forall l1 l2, Forall2 R l1 l2 -> Forall2 R (skipn n l1) (skipn n l2).
Proof.
  induction n as [|n IH]; intros l1 l2 H; simpl; [assumption|].
  destruct H; [constructor|auto].
Qed.

Section Matching.
Variable A : Type.

Lemma rep1_case_blind p (k1 k2 : cont A) s1 s2 :
  case_blind_pred p -> cont_agree k1 k2 -> Forall2 ceq s1 s2 ->
  forall pos, rep1 p k1 pos s1 = rep1 p k2 pos s2.
Proof.
  intros Hp Hk H. induction H as [|a b s1 s2 Hab Hs IH]; intros pos.
  - reflexivity.
  - simpl. rewrite (Hp a b Hab), IH, (Hk _ _ _ Hs). reflexivity.
Qed.

Lemma rmatch_case_blind r :
  case_blind r ->
  forall (k1 k2 : cont A) pos s1 s2,
    cont_agree k1 k2 -> Forall2 ceq s1 s2 ->
    rmatch r k1 pos s1 = rmatch r k2 pos s2.
Proof.
  induction r as [p|p|r1 IH1 r2 IH2|r1 IH1 r2 IH2| | | ];
    intros Hr k1 k2 pos s1 s2 Hk Hs; simpl in *.
  - destruct Hs as [|a b s1 s2 Hab Hs]; [reflexivity|].
    rewrite (Hr a b Hab), (Hk _ _ _ Hs). reflexivity.
  - now apply rep1_case_blind.
  - destruct Hr as [Hr1 Hr2]. apply IH1; auto.
    intros pos' x1 x2 Hx. apply IH2; auto.
  - destruct Hr as [Hr1 Hr2].
    rewrite (IH1 Hr1 k1 k2 pos s1 s2 Hk Hs), (IH2 Hr2 k1 k2 pos s1 s2 Hk Hs).
    reflexivity.
  - now apply Hk.
  - rewrite (Hk pos s1 s2 Hs). reflexivity.
  - destruct Hs as [|a b s1 s2 Hab Hs].
    + apply Hk. constructor.
    + destruct Hs.
      * rewrite (Hk pos [a] [b]) by (constructor; [assumption|constructor]).
        replace (N.eqb b LF) with (N.eqb a LF); [reflexivity|].
        destruct (ceq_cases Hab) as [->|[Ha Hb]]; [reflexivity|].
        apply letter_facts in Ha, Hb.
        destruct Ha as (_ & _ & _ & ->), Hb as (_ & _ & _ & ->).
        reflexivity.
      * reflexivity.
Qed.
End Matching.

Lemma search_from_case_blind r s1 s2 :
  case_blind r -> Forall2 ceq s1 s2 ->
  forall pos, search_from r pos s1 = search_from r pos s2.
Proof.
  intros Hr H. induction H as [|a b s1 s2 Hab Hs IH]; intros pos; simpl.
  - reflexivity.
  - rewrite (@rmatch_case_blind nat r Hr (fun e _ => Some e)
               (fun e _ => Some e) pos (a :: s1) (b :: s2));
      [|intros ? ? ? ?; reflexivity|now constructor].
    rewrite IH. reflexivity.
Qed.

Section RoleCase.
Variable ucd : N -> UnicodeChar.
Variable list_set : list pystr -> list pystr.

Lemma row_ceq a b :
  ceq a b ->
  cased ucd a = cased ucd b
  /\ case_ignorable ucd a = case_ignorable ucd b
  /\ uc_tolower (row ucd a) = uc_tolower (row ucd b)
  /\ uc_lower (row ucd a) = uc_lower (row ucd b)
  /\ uc_title (row ucd a) = uc_title (row ucd b)
  /\ N.eqb a 931 = N.eqb b 931.
Proof.
  intros H. destruct (ceq_cases H) as [->|[Ha Hb]]; [repeat split|].
  pose proof (letter_to_upper Ha Hb H) as Hu.
  pose proof (letter_facts a Ha) as (La & Ia & Sa & _).
  pose proof (letter_facts b Hb) as (Lb & Ib & Sb & _).
  unfold cased, case_ignorable, row. rewrite La, Lb, Sa, Sb. simpl.
  rewrite Ha, Hb, Ia, Ib, Hu. red in H. rewrite H. repeat split.
Qed.

Lemma skip_ignorable_ceq s1 s2 :
  Forall2 ceq s1 s2 ->
  Forall2 ceq (skip_ignorable ucd s1) (skip_ignorable ucd s2).
Proof.
  induction 1 as [|a b s1 s2 Hab Hs IH]; simpl; [constructor|].
  destruct (row_ceq Hab) as (_ & <- & _).
  destruct (case_ignorable ucd a); [assumption|now constructor].
Qed.

Lemma final_sigma_ceq b1 b2 a1 a2 :
  Forall2 ceq b1 b2 -> Forall2 ceq a1 a2 ->
  final_sigma ucd b1 a1 = final_sigma ucd b2 a2.
Proof.
  intros Hb Ha. unfold final_sigma.
  apply skip_ignorable_ceq in Hb, Ha.
  destruct Hb as [|x y ? ? Hxy _], Ha as [|u v ? ? Huv _];
    try reflexivity;
    repeat match goal with
      | H : ceq _ _ |- _ => apply row_ceq in H; destruct H as (-> & _)
      end; reflexivity.
Qed.

Lemma lower_ucs4_ceq b1 b2 c1 c2 a1 a2 :
  Forall2 ceq b1 b2 -> ceq c1 c2 -> Forall2 ceq a1 a2 ->
  lower_ucs4 ucd b1 c1 a1 = lower_ucs4 ucd b2 c2 a2.
Proof.
  intros Hb Hc Ha. unfold lower_ucs4.
  destruct (row_ceq Hc) as (_ & _ & _ & -> & _ & ->).
  rewrite (final_sigma_ceq Hb Ha). reflexivity.
Qed.

Lemma do_title_ceq s1 s2 :
  Forall2 ceq s1 s2 ->
  forall prev b1 b2,
    Forall2 ceq b1 b2 ->
    do_title ucd prev b1 s1 = do_title ucd prev b2 s2.
Proof.
  induction 1 as [|a b s1 s2 Hab Hs IH]; intros prev b1 b2 Hb; simpl.
  - reflexivity.
  - rewrite (lower_ucs4_ceq Hb Hab Hs).
    destruct (row_ceq Hab) as (-> & _ & _ & _ & -> & _).
    rewrite (IH (cased ucd b) (a :: b1) (b :: b2)) by now constructor.
    reflexivity.
Qed.

Lemma ignorecase_accepts_blind av : case_blind_pred (ignorecase_accepts ucd av).
Proof.
  intros a b H. unfold ignorecase_accepts.
  destruct (row_ceq H) as (_ & _ & -> & _). reflexivity.
Qed.

Lemma lit_i_blind av : N.ltb av 128 = true -> case_blind (lit_i ucd av).
Proof.
  intros Hav. unfold lit_i, lit.
  destruct (Ascii7.is_letter av) eqn:Hl; simpl.
  - apply ignorecase_accepts_blind.
  - intros a b H. destruct (ceq_cases H) as [->|[Ha Hb]]; [reflexivity|].
    destruct (N.eqb_spec av a) as [->|_]; [congruence|].
    destruct (N.eqb_spec av b) as [->|_]; [congruence|reflexivity].
Qed.

Lemma word_i_blind w :
  forallb (fun c => N.ltb c 128) w = true -> case_blind (word_i ucd w).
Proof.
  unfold word_i. induction w as [|c w IH]; simpl; [easy|].
  intros H. apply andb_true_iff in H as [Hc Hw].
  split; [now apply lit_i_blind|auto].
Qed.

Lemma role_pattern_blind : case_blind (role_pattern ucd).
Proof.
  unfold role_pattern.
  repeat (split; [apply word_i_blind; reflexivity|]).
  apply word_i_blind; reflexivity.
Qed.

(** C6, as the code has it: two texts that differ in the case of ASCII
    letters only have the same inferred role.  The search ignores the
    case of the letters and [title] then gives the matched word one
    spelling. *)
Theorem inferred_role_ascii_case_invariant (t1 t2 : pystr) :
  same_up_to_ascii_case t1 t2 ->
  inferred_role ucd list_set t1 = inferred_role ucd list_set t2.
Proof.
  intros H. apply same_up_to_ascii_case_Forall2 in H.
  unfold inferred_role, extract_skills_and_role_from_text. cbn [fst snd].
  unfold re_search.
  rewrite (@search_from_case_blind _ t1 t2 role_pattern_blind H 0).
  destruct (search_from (role_pattern ucd) 0 t2) as [m|]; [|reflexivity].
  unfold title, group0. apply do_title_ceq; [|constructor].
  now apply Forall2_firstn, Forall2_skipn.
Qed.
End RoleCase.

(** C6 as stated fails on a letter outside ASCII.  "ENG\u0130NEER", with
    U+0130 (capital I with dot above), contains a role word for the search,
    which compares simple lowercases, and [title] turns its U+0130 into
    U+0069 U+0307: the role is "Engi\u0307neer".  The lowercase of that text,
    "engi\u0307neer", contains no role word: the role is the default. *)
Lemma role_inference_case_counterexample :
  let t1 := str "ENG" ++ [304%N] ++ str "NEER" in
  let t2 := str "eng" ++ [105%N; 775%N] ++ str "neer" in
  lower ucd_excerpt t1 = t2
  /\ lower ucd_excerpt t2 = t2
  /\ inferred_role ucd_excerpt insertion_order t1
     = str "Eng" ++ [105%N; 775%N] ++ str "neer"
  /\ inferred_role ucd_excerpt insertion_order t2 = str "Software Engineer"
  /\ inferred_role ucd_excerpt insertion_order t1
     <> inferred_role ucd_excerpt insertion_order t2.
Proof. cbv zeta. repeat split; try reflexivity. vm_compute. discriminate. Qed.

(** ** The intake flow *)

(** Runs the script on the current goal as far as the data allow. *)
Ltac exec :=
  cbv beta iota zeta delta
    [run_script resume_block init_stage deletion_block delete_user_data
     generate_questions_block generate_questions_page read_candidate_info
     read_generated_questions bind read_session try_except ask_gpt ret
     emit assign_generated_questions modify_session st_stop st_rerun
     exit_with raise lift send_email_with_questions assign_stage
     outcome final events fst snd session candidates requests
     stage candidate_info generated_questions
     candidate_form_block candidate_form_submit save_candidate_data
     assign_candidate_info negb emits_only keeps];
  cbn [app filter is_ask is_st_error is_save].

(** Runs the script and splits on every test it meets. *)
Ltac split_paths :=
  repeat (exec;
    match goal with
    | |- context [match ?x with _ => _ end] =>
        lazymatch x with
        | context [match _ with _ => _ end] => fail
        | _ => destruct x eqn:?
        end
    end).

Ltac all_plain :=
  repeat (apply Forall_cons; [exact I|]); try apply Forall_nil.

Lemma emits_only_bind A B P (m : script A) (k : A -> script B) :
  emits_only P m -> (forall a, emits_only P (k a)) -> emits_only P (bind m k).
Proof.
  intros Hm Hk w. unfold bind. specialize (Hm w).
  destruct (m w) as [[[a|sg] w'] ev]; [|exact Hm].
  specialize (Hk a w'). destruct (k a w') as [[r w''] ev'].
  apply Forall_app. split; assumption.
Qed.

Lemma keeps_bind A B X (f : World -> X) (m : script A) (k : A -> script B) :
  keeps f m -> (forall a, keeps f (k a)) -> keeps f (bind m k).
Proof.
  intros Hm Hk w. unfold bind. specialize (Hm w).
  destruct (m w) as [[[a|sg] w'] ev]; [|exact Hm].
  specialize (Hk a w'). destruct (k a w') as [[r w''] ev'].
  unfold final in *. simpl in *. congruence.
Qed.

Section Intake.
Variable ucd : N -> UnicodeChar.
Variable list_set : list pystr -> list pystr.
Variable PhoneNumber : Type.
Variable phonenumbers_parse : pystr -> pystr -> result PhoneNumber.
Variable is_valid_number : PhoneNumber -> bool.
Variable remote_model : nat -> pystr -> result pystr.
Variable smtp_send : pystr -> pystr -> result unit.
Variable ui : Inputs.

(** *** Every block respects the gate *)

Lemma resume_block_gated :
  emits_only (gated ucd list_set ui) (resume_block ucd list_set ui).
Proof.
  intros w. unfold resume_block.
  destruct (resume_text ui) as [text|] eqn:Ht; [|constructor].
  destruct (extract_skills_and_role_from_text ucd list_set text)
    as [[skills role] mail] eqn:Hx.
  assert (Hm : confirmed_email ucd list_set ui
               = text_input (edited_email ui) (py_or mail [])).
  { unfold confirmed_email. now rewrite Ht, Hx. }
  exec.
  destruct (submitted_resume_form ui) eqn:Hs; exec;
    [|repeat constructor].
  destruct (manual_consent ui) eqn:Hc; exec; [|repeat constructor].
  destruct (validate_email ucd _) eqn:Hv; exec; [|repeat constructor].
  repeat (apply Forall_cons; [exact I|]).
  apply Forall_cons; [|constructor].
  simpl. left. rewrite Hm. auto.
Qed.

Lemma init_stage_gated : emits_only (gated ucd list_set ui) init_stage.
Proof. intros [[[st|] ci gq] rows n]; exec; all_plain. Qed.

Lemma candidate_form_block_gated :
  emits_only (gated ucd list_set ui)
    (candidate_form_block ucd phonenumbers_parse is_valid_number ui).
Proof.
  intros [[st ci gq] rows n]. exec.
  destruct st as [[| |]|]; exec; try constructor.
  destruct (submitted ui) eqn:Hs; exec; [|constructor].
  destruct (py_all _); exec; [|all_plain].
  destruct (validate_email ucd (in_email ui)) eqn:Hv; exec; [|all_plain].
  destruct (validate_phone _ _ _ _) as [[|]|e]; exec; try all_plain.
  destruct (in_consent ui) eqn:Hc; exec; [|all_plain].
  apply Forall_cons; [simpl; auto|].
  apply Forall_cons; [simpl; auto|constructor].
Qed.

Lemma generate_questions_block_gated :
  emits_only (gated ucd list_set ui)
    (generate_questions_block ucd list_set remote_model smtp_send ui).
Proof. intros [[st ci gq] rows n]. split_paths; all_plain. Qed.

Lemma deletion_block_gated :
  emits_only (gated ucd list_set ui) (deletion_block ucd ui).
Proof. intros w. split_paths; all_plain. Qed.

Lemma run_script_gated :
  emits_only (gated ucd list_set ui)
    (run_script ucd list_set phonenumbers_parse is_valid_number
       remote_model smtp_send ui).
Proof.
  unfold run_script.
  apply emits_only_bind; [apply resume_block_gated|intros _].
  apply emits_only_bind; [apply init_stage_gated|intros _].
  apply emits_only_bind; [apply candidate_form_block_gated|intros _].
  apply emits_only_bind; [apply generate_questions_block_gated|intros _].
  apply deletion_block_gated.
Qed.

Lemma gated_no_save_without_consent ev :
  Forall (gated ucd list_set ui) ev ->
  submitted ui = false \/ in_consent ui = false ->
  filter is_save ev = [].
Proof.
  intros H Hc. induction H as [|e ev He _ IH]; [reflexivity|].
  destruct e; simpl in *; try exact IH.
  destruct He as (Hs & Hi & _). destruct Hc; congruence.
Qed.

(** *** What each block leaves untouched *)

Lemma resume_block_keeps_candidates :
  keeps candidates (resume_block ucd list_set ui).
Proof.
  intros w. unfold resume_block.
  destruct (resume_text ui) as [text|]; [|reflexivity].
  destruct (extract_skills_and_role_from_text ucd list_set text)
    as [[skills role] mail].
  split_paths; reflexivity.
Qed.

Lemma resume_block_keeps_session :
  submitted_resume_form ui = false ->
  keeps session (resume_block ucd list_set ui).
Proof.
  intros Hs w. unfold resume_block.
  destruct (resume_text ui) as [text|]; [|reflexivity].
  destruct (extract_skills_and_role_from_text ucd list_set text)
    as [[skills role] mail].
  exec. rewrite Hs. reflexivity.
Qed.

Lemma init_stage_keeps_candidates : keeps candidates init_stage.
Proof. intros [[[st|] ci gq] rows n]; reflexivity. Qed.

Lemma candidate_form_block_keeps_candidates :
  submitted ui = false \/ in_consent ui = false ->
  keeps candidates
    (candidate_form_block ucd phonenumbers_parse is_valid_number ui).
Proof.
  intros H [[st ci gq] rows n]. exec.
  destruct st as [[| |]|]; try reflexivity.
  destruct (submitted ui) eqn:Hs; [|reflexivity].
  destruct H as [H|H]; [discriminate|]. rewrite H.
  split_paths; reflexivity.
Qed.

Lemma candidate_form_block_keeps_session :
  submitted ui = false \/ in_consent ui = false ->
  keeps session
    (candidate_form_block ucd phonenumbers_parse is_valid_number ui).
Proof.
  intros H [[st ci gq] rows n]. exec.
  destruct st as [[| |]|]; try reflexivity.
  destruct (submitted ui) eqn:Hs; [|reflexivity].
  destruct H as [H|H]; [discriminate|]. rewrite H.
  split_paths; reflexivity.
Qed.

Lemma generate_questions_block_keeps_candidates :
  keeps candidates
    (generate_questions_block ucd list_set remote_model smtp_send ui).
Proof. intros [[st ci gq] rows n]. split_paths; reflexivity. Qed.

Lemma deletion_block_keeps_candidates :
  delete_clicked ui = false -> keeps candidates (deletion_block ucd ui).
Proof. intros H w. exec. rewrite H. reflexivity. Qed.

Lemma deletion_block_keeps_session : keeps session (deletion_block ucd ui).
Proof. intros w. split_paths; reflexivity. Qed.

Lemma run_script_keeps_candidates :
  submitted ui = false \/ in_consent ui = false ->
  delete_clicked ui = false ->
  keeps candidates
    (run_script ucd list_set phonenumbers_parse is_valid_number
       remote_model smtp_send ui).
Proof.
  intros Hs Hd. unfold run_script.
  apply keeps_bind; [apply resume_block_keeps_candidates|intros _].
  apply keeps_bind; [apply init_stage_keeps_candidates|intros _].
  apply keeps_bind;
    [now apply candidate_form_block_keeps_candidates|intros _].
  apply keeps_bind;
    [apply generate_questions_block_keeps_candidates|intros _].
  now apply deletion_block_keeps_candidates.
Qed.

(** A run that starts in [info_gathering], in which the resume form is
    not submitted and the manual form is not submitted or has no consent,
    leaves the session as it was. *)
Lemma run_script_stays_info_gathering w :
  stage (session w) = Some info_gathering ->
  submitted_resume_form ui = false ->
  submitted ui = false \/ in_consent ui = false ->
  session (final (run_script ucd list_set phonenumbers_parse
                    is_valid_number remote_model smtp_send ui w))
  = session w.
Proof.
  intros Hst Hr Hc. unfold run_script.
  pose proof (resume_block_keeps_session Hr w) as H1.
  pose proof (candidate_form_block_keeps_session Hc) as H3.
  pose proof deletion_block_keeps_session as H5.
  unfold keeps, final, bind in *.
  destruct (resume_block ucd list_set ui w) as [[[[]|sg] w1] ev1];
    [|exact H1].
  cbn [fst snd] in H1.
  assert (Hst1 : stage (session w1) = Some info_gathering) by congruence.
  unfold init_stage, bind, read_session. rewrite Hst1. unfold ret.
  specialize (H3 w1).
  destruct (candidate_form_block _ _ _ _ w1) as [[[[]|sg] w3] ev3];
    cbn [fst snd] in *; [|congruence].
  assert (Hst3 : stage (session w3) = Some info_gathering) by congruence.
  unfold generate_questions_block, bind, read_session. rewrite Hst3.
  unfold ret. specialize (H5 w3).
  destruct (deletion_block ucd ui w3) as [[r5 w5] ev5].
  cbn [fst snd] in *. congruence.
Qed.

(** *** The gate *)

(** C1: in a run of the script, whatever the inputs and the state, a
    record is saved only with the consent box of the manual form ticked
    and an email that passes [validate_email], and the stage is set to
    [generate_questions] only by a form, manual or resume, whose consent
    box is ticked and whose email passes [validate_email].  A manual form
    submitted without consent leaves the stage at [info_gathering] and
    calls [save_candidate_data] not once: for the form handler alone, and
    for the whole run when the resume form is not submitted. *)
Theorem consent_and_email_gate (w : World) :
  let r := run_script ucd list_set phonenumbers_parse is_valid_number
             remote_model smtp_send ui w in
  let r' := candidate_form_block ucd phonenumbers_parse is_valid_number
              ui w in
  (forall c,
      In (call_save_candidate_data c) (events r) ->
      in_consent ui = true /\ validate_email ucd (c_email c) = true)
  /\ (In (set_stage generate_questions) (events r) ->
      (manual_consent ui = true
       /\ validate_email ucd (confirmed_email ucd list_set ui) = true)
      \/ (in_consent ui = true
          /\ validate_email ucd (in_email ui) = true))
  /\ (stage (session w) = Some info_gathering ->
      submitted ui = true -> in_consent ui = false ->
      stage (session (final r')) = Some info_gathering
      /\ filter is_save (events r') = []
      /\ candidates (final r') = candidates w)
  /\ (stage (session w) = Some info_gathering ->
      submitted_resume_form ui = false -> in_consent ui = false ->
      stage (session (final r)) = Some info_gathering
      /\ filter is_save (events r) = []).
Proof.
  intros r r'.
  pose proof (run_script_gated w) as G.
  fold r in G. rewrite Forall_forall in G.
  split; [|split; [|split]].
  - intros c Hc. apply G in Hc. simpl in Hc.
    destruct Hc as (_ & Hi & Hv & ->). auto.
  - intros Hc. apply G in Hc. simpl in Hc. tauto.
  - intros Hst Hs Hi. subst r'. repeat split.
    + rewrite (candidate_form_block_keeps_session (or_intror Hi) w).
      exact Hst.
    + apply gated_no_save_without_consent; auto.
      apply candidate_form_block_gated.
    + apply candidate_form_block_keeps_candidates; auto.
  - intros Hst Hs Hi. subst r. split.
    + rewrite run_script_stays_info_gathering; auto.
    + apply gated_no_save_without_consent; auto.
      apply run_script_gated.
Qed.

(** C2: a manual form in which name, email, phone, position, location
    and tech stack are non-empty, the email passes [validate_email], the
    phone passes [validate_phone] for the country typed (upper-cased, as
    the handler passes it) and consent is ticked: the handler calls
    [save_candidate_data] once, with the record made of the submitted
    values, then writes the stage [generate_questions] once; these are
    its only events.  The record is the session's candidate and the new
    last row of the table. *)
Theorem manual_form_valid_submission (w : World) :
  stage (session w) = Some info_gathering ->
  submitted ui = true ->
  py_all [in_name ui; in_email ui; in_phone ui; in_position ui;
          in_location ui; in_tech_stack ui] = true ->
  validate_email ucd (in_email ui) = true ->
  validate_phone phonenumbers_parse is_valid_number
    (in_phone ui) (upper ucd (in_country ui)) = Ok true ->
  in_consent ui = true ->
  let record :=
    {| c_name := in_name ui; c_email := in_email ui;
       c_phone := in_phone ui; c_exp := in_exp ui;
       c_position := in_position ui; c_location := in_location ui;
       c_country := in_country ui; c_tech_stack := in_tech_stack ui;
       c_consent := str "yes"; c_timestamp := now ui |} in
  let r :=
    candidate_form_block ucd phonenumbers_parse is_valid_number ui w in
  outcome r = inl tt
  /\ events r = [call_save_candidate_data record;
                 set_stage generate_questions]
  /\ session (final r)
     = mkSession (Some generate_questions) (Some record)
         (generated_questions (session w))
  /\ candidates (final r) = candidates w ++ [record].
Proof.
  intros Hst Hsub Hall Hem Hph Hco.
  unfold candidate_form_block, candidate_form_submit, bind, read_session.
  cbn [fst snd]. rewrite Hst, Hsub, Hall, Hem, Hph, Hco. cbn. auto.
Qed.

(** *** The question page *)

(** C3: on the question page, with [prompt] the prompt built from the
    session's candidate.  On first entry (nothing cached, no click on
    Regenerate) a run sends one request and caches its answer.  A later
    run with cached questions and no click on Regenerate sends no request
    and keeps the cache.  A click on Regenerate sends one request and the
    cache becomes the answer to that request, the old text gone; the run
    ends in [st.rerun()]. *)
Theorem questions_generated_once_and_cached
    (w : World) (data : Candidate) :
  stage (session w) = Some generate_questions ->
  candidate_info (session w) = Some data ->
  let prompt :=
    generate_questions_prompt
      (extract_tech_keywords ucd list_set (c_tech_stack data))
      (c_position data) in
  let r := generate_questions_block ucd list_set remote_model smtp_send
             ui w in
  (forall q,
      generated_questions (session w) = None ->
      regenerate_clicked ui = false ->
      remote_model (requests w) prompt = Ok q ->
      filter is_ask (events r) = [call_ask_gpt prompt]
      /\ generated_questions (session (final r)) = Some q)
  /\ (forall q0,
        generated_questions (session w) = Some q0 ->
        regenerate_clicked ui = false ->
        filter is_ask (events r) = []
        /\ generated_questions (session (final r)) = Some q0)
  /\ (forall q0 q1,
        generated_questions (session w) = Some q0 ->
        regenerate_clicked ui = true ->
        remote_model (requests w) prompt = Ok q1 ->
        filter is_ask (events r) = [call_ask_gpt prompt]
        /\ generated_questions (session (final r)) = Some q1
        /\ outcome r = inr Rerun).
Proof.
  intros Hst Hci prompt r.
  destruct w as [[st ci gq] rows n]. simpl in Hst, Hci. subst st ci.
  subst r. split; [|split].
  - intros q Hgq Hre Hq. simpl in Hgq, Hq. subst gq.
    exec. fold prompt. rewrite Hq, Hre.
    destruct (email_me_clicked ui), (finish_clicked ui);
      exec; try destruct (smtp_send _ _); exec; auto.
  - intros q0 Hgq Hre. simpl in Hgq. subst gq.
    exec. rewrite Hre.
    destruct (email_me_clicked ui), (finish_clicked ui);
      exec; try destruct (smtp_send _ _); exec; auto.
  - intros q0 q1 Hgq Hre Hq. simpl in Hgq, Hq. subst gq.
    exec. rewrite Hre. exec. fold prompt. rewrite Hq. exec. auto.
Qed.

(** C4: when the remote model fails with the exception [e].  On first
    entry the failure is caught: the run shows the error and ends in
    [st.stop()], the session unchanged, nothing cached.  On a click on
    Regenerate the call is outside any [try]: the exception leaves the
    script uncaught and the script shows no error message of its own;
    the session, with the old questions, is unchanged. *)
Theorem regenerate_failure_is_not_caught
    (w : World) (data : Candidate) (e : exn) :
  stage (session w) = Some generate_questions ->
  candidate_info (session w) = Some data ->
  let prompt :=
    generate_questions_prompt
      (extract_tech_keywords ucd list_set (c_tech_stack data))
      (c_position data) in
  remote_model (requests w) prompt = Raise e ->
  let r := generate_questions_block ucd list_set remote_model smtp_send
             ui w in
  (generated_questions (session w) = None ->
     outcome r = inr Stop
     /\ events r = [call_ask_gpt prompt;
                    st_error (str "Failed to generate questions: "
                              ++ exn_text e)]
     /\ session (final r) = session w)
  /\ (forall q0,
        generated_questions (session w) = Some q0 ->
        regenerate_clicked ui = true ->
        outcome r = inr (Uncaught e)
        /\ events r = [st_success (str "Here are your interview questions:");
                       st_write q0; call_ask_gpt prompt]
        /\ filter is_st_error (events r) = []
        /\ session (final r) = session w).
Proof.
  intros Hst Hci prompt Hq r.
  destruct w as [[st ci gq] rows n]. simpl in Hst, Hci, Hq. subst st ci.
  subst r. split.
  - intros Hgq. simpl in Hgq. subst gq.
    exec. fold prompt. rewrite Hq. exec. auto.
  - intros q0 Hgq Hre. simpl in Hgq. subst gq.
    exec. rewrite Hre. exec. fold prompt. rewrite Hq. exec. auto.
Qed.

(** *** The resume path *)

(** C10: the handler of the resume form never changes the table of
    candidates and never calls [save_candidate_data]; when it succeeds
    (consent ticked, confirmed email valid) it stores the record in the
    session and sets the stage [generate_questions].  In a whole run,
    every call of [save_candidate_data] carries the record of a submitted
    manual form; a run in which the manual form is not submitted (and
    the deletion button not clicked) leaves the table as it was. *)
Theorem resume_path_never_persists (w : World) :
  let r := resume_block ucd list_set ui w in
  let whole := run_script ucd list_set phonenumbers_parse is_valid_number
                 remote_model smtp_send ui w in
  candidates (final r) = candidates w
  /\ filter is_save (events r) = []
  /\ (forall text,
        resume_text ui = Some text ->
        submitted_resume_form ui = true ->
        manual_consent ui = true ->
        validate_email ucd (confirmed_email ucd list_set ui) = true ->
        let '(skills, role, _) :=
          extract_skills_and_role_from_text ucd list_set text in
        outcome r = inl tt
        /\ session (final r)
           = mkSession (Some generate_questions)
               (Some {| c_name := [];
                        c_email := confirmed_email ucd list_set ui;
                        c_phone := []; c_exp := 0;
                        c_position :=
                          text_input (edited_role ui) (py_or role []);
                        c_location := []; c_country := [];
                        c_tech_stack := join (str ", ") skills;
                        c_consent := str "yes";
                        c_timestamp := now ui |})
               (generated_questions (session w)))
  /\ (forall c,
        In (call_save_candidate_data c) (events whole) ->
        submitted ui = true /\ c = form_record ui)
  /\ (submitted ui = false -> delete_clicked ui = false ->
      candidates (final whole) = candidates w
      /\ filter is_save (events whole) = []).
Proof.
  intros r whole. split; [|split; [|split; [|split]]].
  - apply resume_block_keeps_candidates.
  - subst r. unfold resume_block.
    destruct (resume_text ui) as [text|]; [|reflexivity].
    destruct (extract_skills_and_role_from_text ucd list_set text)
      as [[skills role] mail].
    split_paths; reflexivity.
  - intros text Ht Hs Hc Hv. subst r.
    unfold confirmed_email in *. unfold resume_block. rewrite Ht in *.
    destruct (extract_skills_and_role_from_text ucd list_set text)
      as [[skills role] mail].
    cbn [snd] in Hv. exec. rewrite Hs, Hc. exec. rewrite Hv. exec.
    cbn [snd]. auto.
  - intros c Hc. pose proof (run_script_gated w) as G.
    rewrite Forall_forall in G. apply G in Hc. simpl in Hc. tauto.
  - intros Hs Hd. split.
    + apply run_script_keeps_candidates; auto.
    + apply gated_no_save_without_consent; auto. apply run_script_gated.
Qed.
End Intake.

(** * The theorems at work on concrete inputs *)

Lemma consent_and_email_gate_witness :
  let w := world_at info_gathering None 0 in
  let r := run_script ucd_excerpt insertion_order digits_parse ten_digits
             model_up smtp_ok (jane_form false) w in
  stage (session w) = Some info_gathering
  /\ in_consent (jane_form false) = false
  /\ stage (session (final r)) = Some info_gathering
  /\ filter is_save (events r) = [].
Proof.
  cbv zeta. split; [reflexivity|]. split; [reflexivity|].
  apply (proj2 (proj2 (proj2
    (@consent_and_email_gate ucd_excerpt insertion_order pystr digits_parse
       ten_digits model_up smtp_ok (jane_form false)
       (world_at info_gathering None 0)))));
    reflexivity.
Defined.

Lemma manual_form_valid_submission_witness :
  let r := candidate_form_block ucd_excerpt digits_parse ten_digits
             (jane_form true) (world_at info_gathering None 0) in
  events r = [call_save_candidate_data jane; set_stage generate_questions]
  /\ candidates (final r) = [jane; jane].
Proof.
  cbv zeta.
  pose proof (@manual_form_valid_submission ucd_excerpt pystr digits_parse
                ten_digits (jane_form true) (world_at info_gathering None 0)
                eq_refl eq_refl eq_refl eq_refl eq_refl eq_refl) as H.
  cbv zeta in H. destruct H as (_ & He & _ & Hc). split.
  - exact He.
  - exact Hc.
Defined.

Lemma questions_generated_once_and_cached_witness :
  let first := generate_questions_block ucd_excerpt insertion_order model_up
                 smtp_ok no_input (world_at generate_questions None 0) in
  let again := generate_questions_block ucd_excerpt insertion_order model_up
                 smtp_ok click_regenerate
                 (world_at generate_questions (Some (str "Q1: answer set 0")) 1)
  in
  generated_questions (session (final first)) = Some (str "Q1: answer set 0")
  /\ generated_questions (session (final again))
     = Some (str "Q1: answer set 1").
Proof.
  cbv zeta. split.
  - apply (proj1 (@questions_generated_once_and_cached ucd_excerpt
                    insertion_order model_up smtp_ok no_input
                    (world_at generate_questions None 0) jane
                    eq_refl eq_refl));
      reflexivity.
  - apply (proj2 (proj2 (@questions_generated_once_and_cached ucd_excerpt
                    insertion_order model_up smtp_ok click_regenerate
                    (world_at generate_questions
                       (Some (str "Q1: answer set 0")) 1) jane
                    eq_refl eq_refl)) (str "Q1: answer set 0"));
      reflexivity.
Defined.

Lemma regenerate_failure_is_not_caught_witness :
  let w := world_at generate_questions (Some (str "Q1: answer set 0")) 1 in
  let r := generate_questions_block ucd_excerpt insertion_order model_down
             smtp_ok click_regenerate w in
  outcome r
  = inr (Uncaught (mkExn ConnectionError (str "Max retries exceeded")))
  /\ filter is_st_error (events r) = [].
Proof.
  cbv zeta.
  pose proof (proj2 (@regenerate_failure_is_not_caught ucd_excerpt
                insertion_order model_down smtp_ok click_regenerate
                (world_at generate_questions (Some (str "Q1: answer set 0")) 1)
                jane _ eq_refl eq_refl eq_refl)
                (str "Q1: answer set 0") eq_refl eq_refl) as H.
  destruct H as (Ho & _ & He & _). split.
  - exact Ho.
  - exact He.
Defined.

Lemma resume_path_never_persists_witness :
  let w := world_at info_gathering None 0 in
  let whole := run_script ucd_excerpt insertion_order digits_parse ten_digits
                 model_up smtp_ok (jane_resume true) w in
  submitted (jane_resume true) = false
  /\ candidates (final whole) = candidates w
  /\ filter is_save (events whole) = [].
Proof.
  cbv zeta. split; [reflexivity|].
  apply (proj2 (proj2 (proj2 (proj2
    (@resume_path_never_persists ucd_excerpt insertion_order pystr
       digits_parse ten_digits model_up smtp_ok (jane_resume true)
       (world_at info_gathering None 0))))));
    reflexivity.
Defined.

Lemma insertion_order_In l x : In x (insertion_order l) <-> In x l.
Proof. apply nodup_In. Qed.

Lemma insertion_order_NoDup l : NoDup (insertion_order l).
Proof. apply NoDup_nodup. Qed.

Lemma extract_tech_keywords_spec_witness :
  NoDup (extract_tech_keywords ucd_excerpt insertion_order
           (str "skills: React, AWS, Docker")).
Proof.
  pose proof (@extract_tech_keywords_spec ucd_excerpt insertion_order
                insertion_order_In insertion_order_NoDup
                (str "skills: React, AWS, Docker")) as H.
  cbv zeta in H. exact (proj1 (proj2 H)).
Defined.

Lemma inferred_role_ascii_case_invariant_witness :
  same_up_to_ascii_case (str "Senior Software ENGINEER")
    (str "senior software engineer")
  /\ inferred_role ucd_excerpt insertion_order (str "Senior Software ENGINEER")
     = inferred_role ucd_excerpt insertion_order
         (str "senior software engineer").
Proof.
  split; [reflexivity|].
  apply inferred_role_ascii_case_invariant. reflexivity.
Defined.

Lemma digits_parse_raises phone country_code e :
  digits_parse phone country_code = Raise e ->
  exn_type e = NumberParseException.
Proof.
  unfold digits_parse.
  destruct (forallb Ascii7.is_digit phone && truthy phone);
    [discriminate|].
  intros [= <-]. reflexivity.
Qed.

Lemma validate_phone_total_witness :
  exists b,
    validate_phone digits_parse ten_digits (str "not a phone") (str "US")
    = Ok b.
Proof.
  destruct (@validate_phone_total pystr digits_parse ten_digits
              digits_parse_raises (str "not a phone") (str "US"))
    as (b & Hb & _).
  exists b. exact Hb.
Defined.

Lemma validate_email_accepts_trailing_newline_witness :
  email_shape ucd_excerpt (str "jane@example.com")
  /\ validate_email ucd_excerpt (str "jane@example.com") = true.
Proof.
  assert (H : email_shape ucd_excerpt (str "jane@example.com")).
  { exists (str "jane"), (str "example"), (str "com").
    repeat split; try discriminate; reflexivity. }
  split; [exact H|].
  apply (proj1 (validate_email_accepts_trailing_newline ucd_excerpt)).
  exact H.
Defined.

Lemma inferred_role_never_absent_witness :
  inferred_role ucd_excerpt insertion_order (str "Jane Doe, React and AWS")
  = str "Software Engineer".
Proof.
  apply (proj2 (inferred_role_never_absent ucd_excerpt insertion_order
                  (str "Jane Doe, React and AWS"))).
  intros before w after E Hl.
  destruct (@search_from_complete (role_pattern ucd_excerpt) before 0 w after
              Hl) as [m Hm].
  rewrite <- E in Hm. vm_compute in Hm. discriminate Hm.
Defined.

(** * Further properties of the code *)

Lemma maintains_bind A B (I : World -> Prop) (m : script A)
    (k : A -> script B) :
  maintains I m -> (forall a, maintains I (k a)) -> maintains I (bind m k).
Proof.
  intros Hm Hk w Hw. unfold bind. specialize (Hm w Hw).
  destruct (m w) as [[[a|sg] w'] ev]; [|exact Hm].
  specialize (Hk a w' Hm). destruct (k a w') as [[r w''] ev'].
  exact Hk.
Qed.

Ltac session_facts :=
  unfold session_ok, left_info_gathering in *; cbn [stage candidate_info
    generated_questions session c_email c_consent] in *;
  repeat match goal with
    | H : _ /\ _ |- _ => destruct H
    end;
  repeat split; intros;
  repeat match goal with
    | H : Some _ = Some _ |- _ => injection H as H; subst
    | H : _ \/ _ |- _ => destruct H
    end;
  cbn [c_email c_consent] in *;
  try discriminate; try congruence; auto;
  try match goal with
    | H : forall c, ?ci = Some c -> _, H1 : ?ci = Some _ |- _ =>
        destruct (H _ H1); solve [auto]
    end;
  try match goal with
    | H : forall c, Some ?x = Some c -> _ |- _ =>
        destruct (H _ eq_refl); solve [auto]
    end;
  try match goal with
    | H : _ -> ?ci <> None |- ?ci <> None => apply H; solve [auto]
    end.

Section Invariants.
Variable ucd : N -> UnicodeChar.
Variable list_set : list pystr -> list pystr.
Variable PhoneNumber : Type.
Variable phonenumbers_parse : pystr -> pystr -> result PhoneNumber.
Variable is_valid_number : PhoneNumber -> bool.
Variable remote_model : nat -> pystr -> result pystr.
Variable smtp_send : pystr -> pystr -> result unit.

Lemma resume_block_ok ui : maintains (world_ok ucd) (resume_block ucd list_set ui).
Proof.
  intros [[st ci gq] rows n] H. unfold world_ok in *. unfold resume_block.
  destruct (resume_text ui) as [text|]; [|exact H].
  destruct (extract_skills_and_role_from_text ucd list_set text)
    as [[skills role] mail].
  split_paths; session_facts.
Qed.

Lemma init_stage_ok : maintains (world_ok ucd) init_stage.
Proof.
  intros [[st ci gq] rows n] H. unfold world_ok in *.
  split_paths; session_facts.
Qed.

Lemma candidate_form_block_ok ui :
  maintains (world_ok ucd)
    (candidate_form_block ucd phonenumbers_parse is_valid_number ui).
Proof.
  intros [[st ci gq] rows n] H. unfold world_ok in *.
  split_paths; session_facts.
Qed.

Lemma generate_questions_block_ok ui :
  maintains (world_ok ucd)
    (generate_questions_block ucd list_set remote_model smtp_send ui).
Proof.
  intros [[st ci gq] rows n] H. unfold world_ok in *.
  split_paths; session_facts.
Qed.

Lemma deletion_block_ok ui : maintains (world_ok ucd) (deletion_block ucd ui).
Proof.
  intros [[st ci gq] rows n] H. unfold world_ok in *.
  split_paths; session_facts.
Qed.

Lemma run_script_ok ui :
  maintains (world_ok ucd)
    (run_script ucd list_set phonenumbers_parse is_valid_number
       remote_model smtp_send ui).
Proof.
  unfold run_script.
  apply maintains_bind; [apply resume_block_ok|intros _].
  apply maintains_bind; [apply init_stage_ok|intros _].
  apply maintains_bind; [apply candidate_form_block_ok|intros _].
  apply maintains_bind; [apply generate_questions_block_ok|intros _].
  apply deletion_block_ok.
Qed.

(** X1: whatever the interactions of a session, the candidate it holds
    has an email that passes [validate_email] and the consent "yes", and a
    session that has left [info_gathering] holds a candidate. *)
Theorem session_candidate_always_consented (uis : list Inputs) (w : World) :
  session_ok ucd (session w) ->
  session_ok ucd
    (session (run_session ucd list_set phonenumbers_parse is_valid_number
                remote_model smtp_send uis w)).
Proof.
  revert w. induction uis as [|ui uis IH]; intros w H; simpl; [exact H|].
  apply IH. now apply run_script_ok.
Qed.
End Invariants.



Section Escapes.
Variable ucd : N -> UnicodeChar.
Variable list_set : list pystr -> list pystr.
Variable PhoneNumber : Type.
Variable phonenumbers_parse : pystr -> pystr -> result PhoneNumber.
Variable is_valid_number : PhoneNumber -> bool.
Variable remote_model : nat -> pystr -> result pystr.
Variable smtp_send : pystr -> pystr -> result unit.
Variable ui : Inputs.






End Escapes.

Lemma budget_bind A B I a b (m : script A) (k : A -> script B) :
  budget I a m -> (forall x, budget I b (k x)) -> budget I (a + b) (bind m k).
Proof.
  intros Hm Hk w Hw. unfold bind.
  destruct (Hm w Hw) as [Ha Hi]. unfold asks in *.
  destruct (m w) as [[[x|sg] w'] ev]; cbn [events final fst snd] in *.
  - destruct (Hk x w' Hi) as [Hb Hi']. unfold asks in *.
    destruct (k x w') as [[r w''] ev']; cbn [events final fst snd] in *.
    rewrite filter_app, length_app. split; [lia|exact Hi'].
  - split; [lia|exact Hi].
Qed.

Section Requests.
Variable ucd : N -> UnicodeChar.
Variable list_set : list pystr -> list pystr.
Variable PhoneNumber : Type.
Variable phonenumbers_parse : pystr -> pystr -> result PhoneNumber.
Variable is_valid_number : PhoneNumber -> bool.
Variable remote_model : nat -> pystr -> result pystr.
Variable smtp_send : pystr -> pystr -> result unit.
Variable ui : Inputs.

Ltac budget_paths :=
  split_paths; unfold asks, cache_is in *;
  cbn [events final fst snd filter is_ask List.length session
       generated_questions] in *;
  repeat match goal with
    | |- context [match ?q with Some _ => _ | None => _ end] => destruct q
    end;
  try (split; [lia|]); try discriminate; try congruence; auto.

Lemma resume_block_budget q :
  budget (cache_is q) 0 (resume_block ucd list_set ui).
Proof.
  intros [[st ci gq] rows n] H. unfold resume_block.
  destruct (resume_text ui) as [text|]; [|split; [apply Nat.le_refl|exact H]].
  destruct (extract_skills_and_role_from_text ucd list_set text)
    as [[skills role] mail].
  budget_paths.
Qed.

Lemma init_stage_budget q : budget (cache_is q) 0 init_stage.
Proof. intros [[st ci gq] rows n] H. budget_paths. Qed.

Lemma candidate_form_block_budget q :
  budget (cache_is q) 0
    (candidate_form_block ucd phonenumbers_parse is_valid_number ui).
Proof. intros [[st ci gq] rows n] H. budget_paths. Qed.

Lemma deletion_block_budget q :
  budget (cache_is q) 0 (deletion_block ucd ui).
Proof. intros [[st ci gq] rows n] H. budget_paths. Qed.

Lemma generate_questions_block_budget :
  budget (cache_is None)
    (if regenerate_clicked ui then 2 else 1)
    (generate_questions_block ucd list_set remote_model smtp_send ui).
Proof. intros [[st ci gq] rows n] H. budget_paths. Qed.

Lemma generate_questions_block_cached q :
  regenerate_clicked ui = false ->
  budget (cache_is (Some q)) 0
    (generate_questions_block ucd list_set remote_model smtp_send ui).
Proof.
  intros Hr [[st ci gq] rows n] H. unfold cache_is in H.
  cbn [session generated_questions] in H. subst gq.
  exec. rewrite ?Hr. budget_paths.
Qed.

(** X5: a run sends at most two requests to the remote model, at most
    one without a click on Regenerate, and none when questions are cached
    and Regenerate is not clicked, whatever else is submitted; the cached
    questions are then kept. *)
Theorem run_script_request_budget (w : World) :
  let r := run_script ucd list_set phonenumbers_parse is_valid_number
             remote_model smtp_send ui w in
  asks r <= 2
  /\ (regenerate_clicked ui = false -> asks r <= 1)
  /\ (forall q,
        generated_questions (session w) = Some q ->
        regenerate_clicked ui = false ->
        asks r = 0 /\ generated_questions (session (final r)) = Some q).
Proof.
  intros r.
  assert (G : budget (cache_is None)
                (0 + (0 + (0 + ((if regenerate_clicked ui then 2 else 1)
                                + 0))))
                (run_script ucd list_set phonenumbers_parse is_valid_number
                   remote_model smtp_send ui)).
  { unfold run_script.
    apply budget_bind; [apply resume_block_budget|intros _].
    apply budget_bind; [apply init_stage_budget|intros _].
    apply budget_bind; [apply candidate_form_block_budget|intros _].
    apply budget_bind; [apply generate_questions_block_budget|intros _].
    apply deletion_block_budget. }
  destruct (G w I) as [Hb _]. fold r in Hb.
  split; [|split].
  - destruct (regenerate_clicked ui); simpl in Hb; lia.
  - intros Hr. rewrite Hr in Hb. simpl in Hb. lia.
  - intros q Hq Hr.
    assert (C : budget (cache_is (Some q)) (0 + (0 + (0 + (0 + 0))))
                  (run_script ucd list_set phonenumbers_parse
                     is_valid_number remote_model smtp_send ui)).
    { unfold run_script.
      apply budget_bind; [apply resume_block_budget|intros _].
      apply budget_bind; [apply init_stage_budget|intros _].
      apply budget_bind; [apply candidate_form_block_budget|intros _].
      apply budget_bind;
        [now apply generate_questions_block_cached|intros _].
      apply deletion_block_budget. }
    destruct (C w Hq) as [Hc Hf]. fold r in Hc, Hf. split; [lia|exact Hf].
Qed.
End Requests.

Section Stages.
Variable ucd : N -> UnicodeChar.
Variable list_set : list pystr -> list pystr.
Variable PhoneNumber : Type.
Variable phonenumbers_parse : pystr -> pystr -> result PhoneNumber.
Variable is_valid_number : PhoneNumber -> bool.
Variable remote_model : nat -> pystr -> result pystr.
Variable smtp_send : pystr -> pystr -> result unit.

Lemma run_script_left ui :
  maintains world_left
    (run_script ucd list_set phonenumbers_parse is_valid_number
       remote_model smtp_send ui).
Proof.
  unfold run_script, world_left.
  apply maintains_bind; [|intros _].
  { intros [[st ci gq] rows n] H. unfold resume_block.
    destruct (resume_text ui) as [text|]; [|exact H].
    destruct (extract_skills_and_role_from_text ucd list_set text)
      as [[skills role] mail].
    split_paths; session_facts. }
  apply maintains_bind; [|intros _].
  { intros [[st ci gq] rows n] H. split_paths; session_facts. }
  apply maintains_bind; [|intros _].
  { intros [[st ci gq] rows n] H. split_paths; session_facts. }
  apply maintains_bind; [|intros _].
  { intros [[st ci gq] rows n] H. split_paths; session_facts. }
  intros [[st ci gq] rows n] H. split_paths; session_facts.
Qed.

(** X2: once the stage is [generate_questions] or [end], no sequence of
    runs brings it back to [info_gathering]. *)
Theorem stage_never_returns_to_info_gathering
    (uis : list Inputs) (w : World) :
  left_info_gathering (session w) ->
  left_info_gathering
    (session (run_session ucd list_set phonenumbers_parse is_valid_number
                remote_model smtp_send uis w)).
Proof.
  revert w. induction uis as [|ui uis IH]; intros w H; simpl; [exact H|].
  apply IH. now apply run_script_left.
Qed.

End Stages.

Lemma pystr_eqb_eq a b : pystr_eqb a b = true <-> a = b.
Proof. unfold pystr_eqb. destruct (pystr_eq_dec a b); split; easy. Qed.

(** X8: the deletion expander deletes only on a click with an email that
    passes [validate_email]; it then removes the rows with exactly that
    email and keeps every other row; the session is never touched. *)
Theorem deletion_block_effect (ucd : N -> UnicodeChar) (ui : Inputs)
    (w : World) :
  let r := deletion_block ucd ui w in
  outcome r = inl tt
  /\ session (final r) = session w
  /\ (delete_clicked ui = true ->
      validate_email ucd (delete_email ui) = true ->
      forall c, In c (candidates (final r)) <->
                In c (candidates w) /\ c_email c <> delete_email ui)
  /\ (delete_clicked ui = false
      \/ validate_email ucd (delete_email ui) = false ->
      candidates (final r) = candidates w
      /\ filter is_delete (events r) = []).
Proof.
  intros r. subst r. unfold deletion_block.
  destruct (delete_clicked ui).
  - destruct (validate_email ucd (delete_email ui));
      cbv [bind delete_user_data emit ret outcome final events fst snd];
      cbn [app session candidates filter is_delete].
    + split; [reflexivity|]. split; [reflexivity|]. split.
      * intros _ _ c. rewrite filter_In, negb_true_iff. split.
        -- intros [Hc Hn]. split; [exact Hc|]. intros E.
           apply pystr_eqb_eq in E. congruence.
        -- intros [Hc Hn]. split; [exact Hc|].
           destruct (pystr_eqb _ _) eqn:E; [|reflexivity].
           apply pystr_eqb_eq in E. contradiction.
      * intros [H|H]; discriminate H.
    + split; [reflexivity|]. split; [reflexivity|]. split.
      * discriminate.
      * auto.
  - exec. split; [reflexivity|]. split; [reflexivity|]. split.
    + discriminate.
    + auto.
Qed.

(** X9: a record that is saved and then deleted by its email leaves the
    table as it was, when no earlier row has that email. *)
Theorem save_then_delete_restores (c : Candidate) (w : World) :
  Forall (fun row => c_email row <> c_email c) (candidates w) ->
  let saved := final (save_candidate_data c w) in
  In c (candidates saved)
  /\ candidates (final (delete_user_data (c_email c) saved)) = candidates w.
Proof.
  intros H. cbn. split; [apply in_or_app; right; now left|].
  rewrite filter_app. cbn.
  assert (E : pystr_eqb (c_email c) (c_email c) = true)
    by now apply pystr_eqb_eq.
  rewrite E. cbn. rewrite app_nil_r.
  induction H as [|row rows Hrow _ IH]; [reflexivity|].
  cbn. destruct (pystr_eqb (c_email row) (c_email c)) eqn:Er.
  - apply pystr_eqb_eq in Er. contradiction.
  - cbn. now rewrite IH.
Qed.

Section ManualForm.
Variable ucd : N -> UnicodeChar.
Variable PhoneNumber : Type.
Variable phonenumbers_parse : pystr -> pystr -> result PhoneNumber.
Variable is_valid_number : PhoneNumber -> bool.

(** X6: a submitted manual form is taken whole or not at all: either
    the record of the form is saved and the stage set, or the world is
    left as it was, with one warning, or with an exception of the phone
    library that the validator does not catch. *)
Theorem manual_form_all_or_nothing (ui : Inputs) (w : World) :
  stage (session w) = Some info_gathering ->
  submitted ui = true ->
  let r := candidate_form_block ucd phonenumbers_parse is_valid_number
             ui w in
  (outcome r = inl tt
   /\ events r = [call_save_candidate_data (form_record ui);
                  set_stage generate_questions]
   /\ candidate_info (session (final r)) = Some (form_record ui))
  \/ (outcome r = inl tt /\ final r = w
      /\ exists msg, events r = [st_warning msg])
  \/ (final r = w /\ events r = []
      /\ exists e,
           outcome r = inr (Uncaught e)
           /\ phonenumbers_parse (in_phone ui) (upper ucd (in_country ui))
              = Raise e
           /\ exn_type e <> NumberParseException).
Proof.
  intros Hst Hs r. subst r.
  destruct w as [[st ci gq] rows n]. cbn [session stage] in Hst. subst st.
  exec. rewrite Hs.
  destruct (py_all _); exec; [|right; left; eauto].
  destruct (validate_email ucd (in_email ui)); exec; [|right; left; eauto].
  unfold validate_phone.
  destruct (phonenumbers_parse _ _) as [number|e] eqn:Hp; exec.
  - destruct (is_valid_number number); exec; [|right; left; eauto].
    destruct (in_consent ui); exec; [|right; left; eauto].
    left. auto.
  - destruct (exn_type e) eqn:He; exec;
      try (right; right; repeat split; exists e; repeat split;
           congruence).
    right; left; eauto.
Qed.
End ManualForm.

Section Table.
Variable ucd : N -> UnicodeChar.
Variable list_set : list pystr -> list pystr.
Variable PhoneNumber : Type.
Variable phonenumbers_parse : pystr -> pystr -> result PhoneNumber.
Variable is_valid_number : PhoneNumber -> bool.
Variable remote_model : nat -> pystr -> result pystr.
Variable smtp_send : pystr -> pystr -> result unit.
Variable ui : Inputs.

Ltac table_facts :=
  unfold table_ok in *; cbn [candidates] in *;
  repeat match goal with H : _ /\ _ |- _ => destruct H end;
  split; auto.

Lemma run_script_table rows0 :
  maintains (table_ok ui rows0)
    (run_script ucd list_set phonenumbers_parse is_valid_number
       remote_model smtp_send ui).
Proof.
  unfold run_script.
  apply maintains_bind; [|intros _].
  { intros w H. unfold table_ok in *.
    rewrite (resume_block_keeps_candidates ucd list_set ui w). exact H. }
  apply maintains_bind; [|intros _].
  { intros [[[st|] ci gq] rows n] H; exact H. }
  apply maintains_bind; [|intros _].
  { intros [[st ci gq] rows n] H. split_paths; try exact H.
    table_facts.
    - intros c Hc. apply in_app_or in Hc as [Hc|[<-|[]]]; auto.
      apply in_or_app. right. now left.
    - intros c Hc Hn. apply in_or_app. left. auto. }
  apply maintains_bind; [|intros _].
  { intros w H. unfold table_ok in *.
    rewrite (generate_questions_block_keeps_candidates ucd list_set
               remote_model smtp_send ui w). exact H. }
  intros [[st ci gq] rows n] H. unfold deletion_block.
  destruct (delete_clicked ui); [|exact H].
  destruct (validate_email ucd (delete_email ui)); [|exact H].
  cbv [bind delete_user_data emit ret final fst snd].
  table_facts.
  - intros c Hc. apply filter_In in Hc as [Hc _]. auto.
  - intros c Hc Hn. apply filter_In. split; [auto|].
    apply negb_true_iff. unfold pystr_eqb.
    destruct (pystr_eq_dec (c_email c) (delete_email ui));
      [contradiction|reflexivity].
Qed.

(** X7: a run never alters a row: every row of the table after the run
    is a row of the table before it or the record of the manual form, and
    every row of the table before it is still there unless its email is
    the one given for deletion. *)
Theorem run_script_never_alters_rows (w : World) :
  let r := run_script ucd list_set phonenumbers_parse is_valid_number
             remote_model smtp_send ui w in
  (forall c, In c (candidates (final r)) ->
             In c (candidates w) \/ c = form_record ui)
  /\ (forall c, In c (candidates w) -> c_email c <> delete_email ui ->
                In c (candidates (final r))).
Proof.
  intros r.
  assert (H0 : table_ok ui (candidates w) w).
  { split; [|auto]. intros c Hc. apply in_or_app. now left. }
  destruct (run_script_table H0) as [H1 H2]. fold r in H1, H2.
  split; [|exact H2].
  intros c Hc. apply H1 in Hc. apply in_app_or in Hc as [Hc|[<-|[]]]; auto.
Qed.
End Table.

Lemma is_substring_trans a b c :
  is_substring a b -> is_substring b c -> is_substring a c.
Proof.
  intros (p & q & ->) (p' & q' & ->).
  exists (p' ++ p), (q ++ q'). now rewrite <- !app_assoc.
Qed.

Lemma Forall2_sigma_like_refl s : Forall2 sigma_like s s.
Proof. induction s; constructor; [now left|assumption]. Qed.

Lemma sigma_like_exact needle :
  forallb not_sigma needle = true ->
  forall l, Forall2 sigma_like l needle -> l = needle.
Proof.
  induction needle as [|c needle IH]; intros Hn l H; inversion H; subst;
    [reflexivity|].
  simpl in Hn. apply andb_true_iff in Hn as [Hc Hn].
  f_equal; [|now apply IH].
  match goal with H : sigma_like _ c |- _ => destruct H as [->|[_ Hs]] end;
    [reflexivity|].
  unfold not_sigma in Hc. apply andb_true_iff in Hc as [H1 H2].
  apply negb_true_iff, N.eqb_neq in H1, H2. destruct Hs; contradiction.
Qed.

Section Lower.
Variable ucd : N -> UnicodeChar.

Lemma lower_ucs4_sigma_like b1 a1 b2 a2 c :
  Forall2 sigma_like (lower_ucs4 ucd b1 c a1) (lower_ucs4 ucd b2 c a2).
Proof.
  unfold lower_ucs4. destruct (N.eqb c 931).
  - constructor; [|constructor]. right.
    destruct (final_sigma ucd b1 a1), (final_sigma ucd b2 a2); auto.
  - apply Forall2_sigma_like_refl.
Qed.

(** The lowercase of a text that continues: the part of [s], up to the
    choice between the two sigmas, then the part of the rest. *)
Lemma do_lower_app s :
  forall b b' post,
  exists L,
    do_lower ucd b (s ++ post) = L ++ do_lower ucd (rev s ++ b) post
    /\ Forall2 sigma_like L (do_lower ucd b' s).
Proof.
  induction s as [|c s IH]; intros b b' post.
  - exists []. split; [reflexivity|constructor].
  - destruct (IH (c :: b) (c :: b') post) as (L & E & HL).
    exists (lower_ucs4 ucd b c (s ++ post) ++ L). split.
    + simpl. rewrite E, <- !app_assoc. reflexivity.
    + simpl. apply Forall2_app; [apply lower_ucs4_sigma_like|exact HL].
Qed.

(** A needle without sigma that occurs in the lowercase of a text occurs
    in the lowercase of every text that contains that text. *)
Lemma lower_substring needle t1 t2 :
  forallb not_sigma needle = true ->
  is_substring t1 t2 ->
  is_substring needle (lower ucd t1) ->
  is_substring needle (lower ucd t2).
Proof.
  intros Hn (pre & post & ->) (x & y & E). unfold lower in *.
  destruct (do_lower_app pre [] [] (t1 ++ post)) as (Lp & -> & _).
  destruct (do_lower_app t1 (rev pre ++ []) [] post) as (L & -> & HL).
  rewrite E in HL.
  apply Forall2_app_inv_r in HL as (lx & l' & Hx & HL & ->).
  apply Forall2_app_inv_r in HL as (ln & ly & Hln & Hy & ->).
  apply (sigma_like_exact Hn) in Hln. subst ln.
  exists (Lp ++ lx), (ly ++ do_lower ucd (rev t1 ++ rev pre ++ []) post).
  now rewrite <- !app_assoc.
Qed.

Lemma keywords_lower_no_sigma :
  Forall (fun kw => forallb not_sigma (lower ucd kw) = true) keywords.
Proof. repeat constructor. Qed.
End Lower.

Section Skills.
Variable ucd : N -> UnicodeChar.
Variable list_set : list pystr -> list pystr.
Hypothesis list_set_In : forall l x, In x (list_set l) <-> In x l.

Lemma detected_iff text kw :
  In kw (extract_tech_keywords ucd list_set text) <->
  In kw keywords /\ is_substring (lower ucd kw) (lower ucd text).
Proof.
  unfold extract_tech_keywords.
  rewrite list_set_In, filter_In, contains_iff. reflexivity.
Qed.

(** X11: skill detection grows with the text: what is detected in a part
    of a text is detected in the text. *)
Theorem extract_tech_keywords_monotone (t1 t2 : pystr) :
  is_substring t1 t2 ->
  incl (extract_tech_keywords ucd list_set t1)
       (extract_tech_keywords ucd list_set t2).
Proof.
  intros Hs kw Hkw. apply detected_iff in Hkw as [Hk Hl].
  apply detected_iff. split; [exact Hk|].
  pose proof (keywords_lower_no_sigma ucd) as Hsig.
  rewrite Forall_forall in Hsig.
  eapply lower_substring; eauto.
Qed.

(** X12: every text in which "JavaScript" is detected has "Java"
    detected as well. *)
Theorem javascript_implies_java (text : pystr) :
  In (str "JavaScript") (extract_tech_keywords ucd list_set text) ->
  In (str "Java") (extract_tech_keywords ucd list_set text).
Proof.
  intros H. apply detected_iff in H as [_ H]. apply detected_iff.
  split; [simpl; auto|].
  apply is_substring_trans with (b := lower ucd (str "JavaScript"));
    [|exact H].
  exists [], (str "script"). reflexivity.
Qed.
End Skills.

Lemma is_substring_nil s : is_substring [] s.
Proof. exists [], s. reflexivity. Qed.

Lemma is_substring_refl s : is_substring s s.
Proof. exists [], []. now rewrite app_nil_r. Qed.

(** A needle without the character [c] that occurs in [a ++ c :: b] occurs
    in [a] or in [b]. *)
Lemma is_substring_around c needle a b :
  forallb (differs_from c) needle = true ->
  is_substring needle (a ++ c :: b) ->
  is_substring needle a \/ is_substring needle b.
Proof.
  intros Hn (p & q & E).
  assert (Hc : ~ In c needle).
  { intros Hin. rewrite forallb_forall in Hn. specialize (Hn c Hin).
    unfold differs_from in Hn. now rewrite N.eqb_refl in Hn. }
  apply app_eq_app in E as [l [[-> E]|[-> E]]].
  - apply app_eq_app in E as [l2 [[-> E]|[-> E]]].
    + destruct l2 as [|x l2].
      * left. exists p, []. now rewrite !app_nil_r.
      * injection E as -> _. exfalso. apply Hc.
        apply in_or_app. right. now left.
    + left. exists p, l2. reflexivity.
  - destruct l as [|x l].
    + destruct needle as [|y needle]; [left; apply is_substring_nil|].
      injection E as -> _. exfalso. apply Hc. now left.
    + injection E as _ ->. right. exists l, q. reflexivity.
Qed.

Lemma is_substring_join needle items :
  needle <> [] ->
  forallb (differs_from 44) needle = true ->
  forallb (differs_from 32) needle = true ->
  is_substring needle (join (str ", ") items) ->
  exists item, In item items /\ is_substring needle item.
Proof.
  intros Hne H44 H32.
  induction items as [|x [|y rest] IH]; intros H.
  - destruct H as (p & q & E). symmetry in E.
    apply app_eq_nil in E as [_ E]. apply app_eq_nil in E as [E _].
    contradiction.
  - exists x. split; [now left|exact H].
  - change (join (str ", ") (x :: y :: rest))
      with (x ++ 44%N :: ([] ++ 32%N :: join (str ", ") (y :: rest))) in H.
    apply (@is_substring_around 44%N needle _ _ H44) in H as [H|H].
    + exists x. split; [now left|exact H].
    + apply (@is_substring_around 32%N needle _ _ H32) in H as [H|H].
      * destruct H as (p & q & E). symmetry in E.
        apply app_eq_nil in E as [_ E]. apply app_eq_nil in E as [E _].
        contradiction.
      * destruct (IH H) as (item & Hi & Hs).
        exists item. split; [now right|exact Hs].
Qed.

Lemma in_join sep x items :
  In x items -> is_substring x (join sep items).
Proof.
  induction items as [|y [|z rest] IH]; intros H; [easy| |].
  - destruct H as [->|[]]. apply is_substring_refl.
  - change (join sep (y :: z :: rest))
      with (y ++ sep ++ join sep (z :: rest)).
    destruct H as [->|H].
    + exists [], (sep ++ join sep (z :: rest)). reflexivity.
    + destruct (IH H) as (p & q & E). rewrite E.
      exists (y ++ sep ++ p), q. now rewrite <- !app_assoc.
Qed.

Lemma map_join (f : N -> N) sep items :
  map f (join sep items) = join (map f sep) (map (map f) items).
Proof.
  induction items as [|y [|z rest] IH]; [reflexivity|reflexivity|].
  change (join sep (y :: z :: rest))
    with (y ++ sep ++ join sep (z :: rest)).
  rewrite !map_app, IH. reflexivity.
Qed.

Section JoinedSkills.
Variable ucd : N -> UnicodeChar.
Variable list_set : list pystr -> list pystr.
Hypothesis list_set_In : forall l x, In x (list_set l) <-> In x l.

Lemma lower_ascii s :
  forallb is_ascii s = true ->
  forall b, do_lower ucd b s = map Ascii7.to_lower s.
Proof.
  induction s as [|c s IH]; intros H b; [reflexivity|].
  simpl in H. apply andb_true_iff in H as [Hc Hs].
  simpl. rewrite (IH Hs). unfold lower_ucs4, row.
  unfold is_ascii in Hc. rewrite Hc.
  replace (N.eqb c 931) with false; [reflexivity|].
  symmetry. apply N.eqb_neq. apply N.ltb_lt in Hc. lia.
Qed.

Lemma keywords_ascii : Forall (fun kw => forallb is_ascii kw = true) keywords.
Proof. repeat constructor. Qed.

Lemma keywords_lower_plain :
  Forall (fun kw => lower ucd kw <> []
                    /\ forallb (differs_from 44) (lower ucd kw) = true
                    /\ forallb (differs_from 32) (lower ucd kw) = true)
    keywords.
Proof. repeat constructor; discriminate. Qed.

Lemma join_ascii items :
  Forall (fun kw => forallb is_ascii kw = true) items ->
  forallb is_ascii (join (str ", ") items) = true.
Proof.
  induction items as [|y [|z rest] IH]; intros H; [reflexivity| |].
  - inversion H; subst. assumption.
  - change (join (str ", ") (y :: z :: rest))
      with (y ++ str ", " ++ join (str ", ") (z :: rest)).
    inversion H; subst. rewrite !forallb_app.
    rewrite IH by assumption.
    match goal with H : forallb is_ascii y = true |- _ => rewrite H end.
    reflexivity.
Qed.

(** X13: the question page reads the skills back from the tech stack
    that the resume form stored, the detected skills joined by ", ": it
    finds the skills that were detected in the resume, and no other. *)
Theorem skills_survive_the_tech_stack (text kw : pystr) :
  In kw (extract_tech_keywords ucd list_set
           (join (str ", ") (extract_tech_keywords ucd list_set text)))
  <-> In kw (extract_tech_keywords ucd list_set text).
Proof.
  set (skills := extract_tech_keywords ucd list_set text).
  assert (Hsk : Forall (fun kw => forallb is_ascii kw = true) skills).
  { apply Forall_forall. intros s Hs.
    apply (detected_iff ucd list_set list_set_In) in Hs as [Hs _].
    pose proof keywords_ascii as K. rewrite Forall_forall in K. auto. }
  pose proof (keywords_lower_no_sigma ucd) as Hsig.
  pose proof keywords_lower_plain as Hpl.
  pose proof keywords_ascii as Hasc.
  rewrite Forall_forall in Hsig, Hpl, Hasc.
  split; intros H.
  - apply (detected_iff ucd list_set list_set_In) in H as [Hk Hl].
    destruct (Hpl kw Hk) as (Hne & H44 & H32).
    unfold lower in Hl at 2.
    rewrite (lower_ascii _ (join_ascii Hsk)), map_join in Hl.
    apply (@is_substring_join _ (map (map Ascii7.to_lower) skills)
             Hne H44 H32) in Hl as (item & Hi & Hs).
    apply in_map_iff in Hi as (s & <- & Hs').
    assert (Hs2 := Hs'). rewrite Forall_forall in Hsk.
    apply (detected_iff ucd list_set list_set_In) in Hs2 as [Hks Hls].
    apply (detected_iff ucd list_set list_set_In). split; [exact Hk|].
    apply is_substring_trans with (b := lower ucd s); [|exact Hls].
    unfold lower at 2. rewrite (lower_ascii _ (Hsk s Hs')). exact Hs.
  - assert (H' := H).
    apply (detected_iff ucd list_set list_set_In) in H' as [Hk _].
    apply (detected_iff ucd list_set list_set_In). split; [exact Hk|].
    apply lower_substring with (t1 := kw); auto.
    + now apply in_join.
    + apply is_substring_refl.
Qed.
End JoinedSkills.

Lemma endswith_iff suffix s :
  endswith suffix s = true <-> exists stem, s = stem ++ suffix.
Proof.
  unfold endswith. rewrite startswith_iff. split.
  - intros [rest E]. exists (rev rest).
    apply (f_equal (@rev N)) in E.
    rewrite rev_involutive, rev_app_distr, rev_involutive in E. exact E.
  - intros [stem ->]. exists (rev stem). apply rev_app_distr.
Qed.

Section ResumeText.
Variable ucd : N -> UnicodeChar.
Variable list_set : list pystr -> list pystr.
Hypothesis list_set_In : forall l x, In x (list_set l) <-> In x l.

(** X17: for a PDF that the reader can open, the text of every page is
    part of the text of the resume, and a skill detected in the text of a
    page is detected in the text of the resume. *)
Theorem pdf_page_skills_are_detected
    (file : UploadedFile) (stem : pystr) (pages : list (option pystr))
    (t kw : pystr) :
  file_name file = stem ++ str ".pdf" ->
  pdf_pages file = Ok pages ->
  In (Some t) pages ->
  In kw (extract_tech_keywords ucd list_set t) ->
  exists text,
    extract_resume_text file = Ok text
    /\ is_substring t text
    /\ In kw (extract_tech_keywords ucd list_set text).
Proof.
  intros Hn Hp Ht Hk. unfold extract_resume_text.
  replace (endswith (str ".pdf") (file_name file)) with true
    by (symmetry; apply endswith_iff; eauto).
  rewrite Hp. eexists. split; [reflexivity|].
  assert (Hs : is_substring t (join (str " ") (map page_text pages))).
  { apply in_join. apply in_map_iff. exists (Some t). split; [|exact Ht].
    unfold page_text, py_or. now destruct t. }
  split; [exact Hs|].
  exact (extract_tech_keywords_monotone ucd list_set list_set_In Hs kw Hk).
Qed.
End ResumeText.

Lemma count_occ_forallb (p : N -> bool) c l :
  forallb p l = true -> p c = false -> count_occ N.eq_dec l c = 0.
Proof.
  intros Hl Hc. apply count_occ_not_In. intros Hin.
  rewrite forallb_forall in Hl. specialize (Hl c Hin). congruence.
Qed.

Section EmailFacts.
Variable ucd : N -> UnicodeChar.

Lemma email_shape_facts s :
  email_shape ucd s ->
  count_occ N.eq_dec s 64%N = 1
  /\ (exists before after, s = before ++ [64%N] ++ after /\ In 46%N after)
  /\ forallb (fun c => word_dot_dash ucd c || N.eqb c 64) s = true.
Proof.
  intros (l & d & t & -> & _ & _ & _ & Hl & Hd & Ht).
  split; [|split].
  - rewrite !count_occ_app.
    rewrite (@count_occ_forallb _ 64%N _ Hl eq_refl),
      (@count_occ_forallb _ 64%N _ Hd eq_refl),
      (@count_occ_forallb _ 64%N _ Ht eq_refl).
    reflexivity.
  - exists l, (d ++ [46%N] ++ t). split; [reflexivity|].
    apply in_or_app. right. now left.
  - rewrite !forallb_app. simpl.
    assert (W : forall x, forallb (word_dot_dash ucd) x = true ->
                forallb (fun c => word_dot_dash ucd c || N.eqb c 64) x
                = true).
    { intros x Hx. rewrite forallb_forall in *. intros c Hc.
      now rewrite (Hx c Hc). }
    rewrite (W l Hl), (W d Hd). simpl.
    rewrite forallb_forall in *. intros c Hc.
    specialize (Ht c Hc). unfold word_dot_dash. now rewrite Ht.
Qed.

(** X10: an email that the validator accepts has exactly one at sign, a
    dot somewhere after it, and no space. *)
Theorem validate_email_accepted_form (s : pystr) :
  validate_email ucd s = true ->
  count_occ N.eq_dec s 64%N = 1
  /\ (exists before after, s = before ++ [64%N] ++ after /\ In 46%N after)
  /\ ~ In 32%N s.
Proof.
  intros H. apply validate_email_iff in H as [H|(s' & -> & H)];
    apply email_shape_facts in H as (Hc & (b & a & E & Hd) & Hw).
  - split; [exact Hc|]. split; [eauto|].
    intros Hin. rewrite forallb_forall in Hw. now specialize (Hw _ Hin).
  - split; [|split].
    + rewrite count_occ_app, Hc. reflexivity.
    + exists b, (a ++ [LF]). split.
      * rewrite E, <- !app_assoc. reflexivity.
      * apply in_or_app. now left.
    + intros Hin. apply in_app_or in Hin as [Hin|[Hin|[]]].
      * rewrite forallb_forall in Hw. now specialize (Hw _ Hin).
      * discriminate Hin.
Qed.
End EmailFacts.

Lemma resume_email_pattern_lang pos pre rest :
  lang resume_email_pattern pos pre rest <-> resume_email_shape pre.
Proof.
  unfold resume_email_pattern, resume_email_shape, lit. cbn [seq lang].
  split.
  - intros (p1 & q1 & -> & [Hn1 Hp1] & p2 & q2 & -> & (c2 & -> & Hc2)
            & p3 & q3 & -> & [Hn3 Hp3] & p4 & q4 & -> & (c4 & -> & Hc4)
            & p5 & q5 & -> & [Hn5 Hp5] & ->).
    apply N.eqb_eq in Hc2, Hc4. subst c2 c4.
    exists p1, p3, p5. rewrite !app_nil_r. auto 10.
  - intros (l & d & t & -> & Hl & Hd & Ht & Hpl & Hpd & Hpt).
    exists l, ([64%N] ++ d ++ [46%N] ++ t). split; [easy|]. split; [easy|].
    exists [64%N], (d ++ [46%N] ++ t).
    split; [easy|]. split; [now exists 64%N|].
    exists d, ([46%N] ++ t). split; [easy|]. split; [easy|].
    exists [46%N], t. split; [easy|]. split; [now exists 46%N|].
    exists t, []. split; [now rewrite app_nil_r|]. split; [easy|].
    reflexivity.
Qed.

(** The match that a search returns starts at the leftmost position at
    which the pattern matches. *)
Lemma search_from_leftmost r :
  forall s pos st e,
    search_from r pos s = Some (st, e) ->
    forall skipped pre rest,
      s = skipped ++ pre ++ rest ->
      lang r (pos + List.length skipped) pre rest ->
      st <= pos + List.length skipped.
Proof.
  induction s as [|c s IH]; intros pos st e H skipped pre rest E Hl.
  - simpl in H. destruct (rmatch r _ pos []) eqn:Hm; [|discriminate].
    injection H as <- _. lia.
  - simpl in H. destruct (rmatch r _ pos (c :: s)) eqn:Hm.
    + injection H as <- _. lia.
    + destruct skipped as [|x skipped].
      * exfalso. simpl in E, Hl. rewrite Nat.add_0_r in Hl.
        destruct (@rmatch_complete nat r (fun e _ => Some e) pos pre rest
                    (pos + List.length pre) Hl eq_refl) as [y Hy].
        rewrite <- E in Hy. congruence.
      * injection E as _ E. simpl in Hl. rewrite Nat.add_succ_r in Hl.
        specialize (IH (S pos) st e H skipped pre rest E Hl).
        simpl. lia.
Qed.

Section EmailInference.
Variable ucd : N -> UnicodeChar.
Variable list_set : list pystr -> list pystr.

(** X15: the email inferred from a resume is the leftmost part of the
    text of the shape local@domain.suffix over the three sets of the
    pattern; it is empty exactly when the text has no such part. *)
Theorem inferred_email_spec (text : pystr) :
  let e := inferred_email ucd list_set text in
  (e <> [] ->
   resume_email_shape e
   /\ exists before after,
        text = before ++ e ++ after
        /\ forall before' e' after',
             text = before' ++ e' ++ after' ->
             resume_email_shape e' ->
             List.length before <= List.length before')
  /\ (e = [] <->
      forall before' e' after',
        text = before' ++ e' ++ after' -> ~ resume_email_shape e').
Proof.
  unfold inferred_email, extract_skills_and_role_from_text. cbn [snd].
  unfold re_search.
  destruct (search_from resume_email_pattern 0 text) as [[st en]|] eqn:H.
  - pose proof (@search_from_leftmost _ _ _ _ _ H) as Hleft.
    apply search_from_sound in H as (sk & pre & rest & -> & -> & -> & Hl).
    change (0 + List.length sk) with (List.length sk) in *.
    rewrite group0_span.
    apply resume_email_pattern_lang in Hl.
    split.
    + intros _. split; [exact Hl|].
      exists sk, rest. split; [reflexivity|].
      intros b' e' a' E He'.
      apply (Hleft b' e' a' E).
      now apply resume_email_pattern_lang.
    + split.
      * intros ->. destruct Hl as (l & d & t & E & Hne & _).
        destruct l; [contradiction|discriminate].
      * intros Hno. exfalso. exact (Hno sk pre rest eq_refl Hl).
  - split; [intros Hne; now contradict Hne|].
    split; [|reflexivity].
    intros _ b' e' a' E He'.
    destruct (@search_from_complete resume_email_pattern b' 0 e' a')
      as [m Hm]; [now apply resume_email_pattern_lang|].
    rewrite <- E in Hm. congruence.
Qed.
End EmailInference.

Ltac char_cases :=
  unfold local_char, domain_char, suffix_char, az_09, word_dot_dash, is_word,
    row, ascii_row, Ascii7.is_letter, Ascii7.is_upper, Ascii7.is_lower,
    Ascii7.is_digit in *;
  cbn [existsb uc_alnum] in *;
  repeat match goal with
    | H : context [N.leb ?a ?b] |- _ => destruct (N.leb_spec a b)
    | |- context [N.leb ?a ?b] => destruct (N.leb_spec a b)
    | H : context [N.eqb ?a ?b] |- _ => destruct (N.eqb_spec a b)
    | |- context [N.eqb ?a ?b] => destruct (N.eqb_spec a b)
    | H : context [N.ltb ?a ?b] |- _ => destruct (N.ltb_spec a b)
    | |- context [N.ltb ?a ?b] => destruct (N.ltb_spec a b)
    end;
  cbn [andb orb negb uc_alnum] in *; try discriminate; try reflexivity;
  try lia.

Section Prefill.
Variable ucd : N -> UnicodeChar.

Lemma local_char_wdd c :
  local_char c = true -> c <> 43%N -> word_dot_dash ucd c = true.
Proof. intros H Hc. char_cases. Qed.

Lemma domain_char_wdd c : domain_char c = true -> word_dot_dash ucd c = true.
Proof. intros H. char_cases. Qed.

Lemma suffix_char_wdd c : suffix_char c = true -> word_dot_dash ucd c = true.
Proof. intros H. char_cases. Qed.

Lemma forallb_impl (p q : N -> bool) l :
  (forall c, In c l -> p c = true -> q c = true) ->
  forallb p l = true -> forallb q l = true.
Proof.
  intros H Hp. rewrite forallb_forall in *. intros c Hc. auto.
Qed.

Lemma resume_email_shape_last e c :
  resume_email_shape (e ++ [c]) -> suffix_char c = true.
Proof.
  intros (l & d & t & E & _ & _ & Ht & _ & _ & Hpt).
  destruct (exists_last Ht) as (t' & x & ->).
  rewrite forallb_app in Hpt. simpl in Hpt.
  apply andb_true_iff in Hpt as [_ Hx]. rewrite andb_true_r in Hx.
  replace (l ++ [64%N] ++ d ++ [46%N] ++ t' ++ [x])
    with ((l ++ [64%N] ++ d ++ [46%N] ++ t') ++ [x]) in E
    by now rewrite <- !app_assoc.
  apply app_inj_tail in E as [_ ->]. exact Hx.
Qed.

(** X16: the validator accepts an email inferred from a resume exactly
    when it holds no plus sign and ends in a dot followed by one or more
    word characters.  An address followed by the full stop of a sentence,
    or one with a plus sign, is prefilled and then refused. *)
Theorem validate_email_on_inferred (e : pystr) :
  resume_email_shape e ->
  validate_email ucd e = true <->
  ~ In 43%N e
  /\ exists before last_label,
       e = before ++ [46%N] ++ last_label
       /\ last_label <> []
       /\ forallb (is_word ucd) last_label = true.
Proof.
  intros Hs. split.
  - intros H. apply validate_email_iff in H as [H|(s' & -> & H)].
    + pose proof (email_shape_facts H) as (_ & _ & Hw).
      destruct H as (l & d & t & -> & _ & _ & Ht & _ & _ & Hpt).
      split.
      * intros Hin. rewrite forallb_forall in Hw. now specialize (Hw _ Hin).
      * exists (l ++ [64%N] ++ d), t. rewrite <- !app_assoc. auto.
    + apply resume_email_shape_last in Hs. discriminate Hs.
  - intros (Hplus & pre & T & E & HT & HwT).
    apply validate_email_iff. left.
    destruct Hs as (l & d & t & E' & Hl & Hd & Ht & Hpl & Hpd & Hpt).
    assert (HT46 : ~ In 46%N T).
    { intros Hin. rewrite forallb_forall in HwT. now specialize (HwT _ Hin). }
    assert (Hlw : forallb (word_dot_dash ucd) l = true).
    { apply forallb_impl with (p := local_char); [|exact Hpl].
      intros c Hc Hp. apply local_char_wdd; [exact Hp|].
      intros ->. apply Hplus. rewrite E'. apply in_or_app. now left. }
    assert (Hdw : forallb (word_dot_dash ucd) d = true).
    { apply forallb_impl with (p := domain_char); [|exact Hpd].
      intros c _. apply domain_char_wdd. }
    assert (Htw : forallb (word_dot_dash ucd) t = true).
    { apply forallb_impl with (p := suffix_char); [|exact Hpt].
      intros c _. apply suffix_char_wdd. }
    assert (E2 : pre ++ 46%N :: T = (l ++ [64%N] ++ d) ++ 46%N :: t).
    { transitivity e; [symmetry; exact E|].
      rewrite E'. now rewrite <- !app_assoc. }
    assert (Ht' : t = T \/ exists t1, t = t1 ++ [46%N] ++ T).
    { apply app_eq_app in E2 as [x [[_ E2]|[_ E2]]].
      - destruct x as [|y x]; simpl in E2.
        + injection E2 as ->. now left.
        + injection E2 as <- ->. right. now exists x.
      - destruct x as [|y x]; simpl in E2.
        + injection E2 as ->. now left.
        + injection E2 as <- ->. exfalso. apply HT46.
          apply in_or_app. right. now left. }
    destruct Ht' as [->|[t1 ->]].
    + exists l, d, T. auto 10.
    + exists l, (d ++ [46%N] ++ t1), T.
      rewrite !forallb_app in Htw. simpl in Htw.
      apply andb_true_iff in Htw as [Ht1 _].
      split; [now rewrite <- !app_assoc|].
      split; [exact Hl|]. split; [now destruct d|].
      split; [exact HT|]. split; [exact Hlw|].
      split; [|exact HwT].
      rewrite !forallb_app, Hdw, Ht1. reflexivity.
Qed.
End Prefill.

Section RoleValues.
Variable ucd : N -> UnicodeChar.
Variable list_set : list pystr -> list pystr.

Lemma accepts_ascii av ch :
  Ascii7.is_lower av = true -> is_ascii ch = true ->
  ignorecase_accepts ucd av ch = true <-> Ascii7.to_lower ch = av.
Proof.
  intros Hav Hch. unfold ignorecase_accepts, row. unfold is_ascii in Hch.
  rewrite Hch. cbn [ascii_row uc_tolower].
  assert (Hlo : Ascii7.to_lower av = av).
  { unfold Ascii7.to_lower, Ascii7.is_upper, Ascii7.is_lower in *.
    destruct (N.leb_spec 65 av), (N.leb_spec av 90); simpl; try reflexivity.
    destruct (N.leb_spec 97 av); simpl in Hav; [lia|discriminate]. }
  rewrite Hlo.
  assert (Hlt : (Ascii7.to_lower ch < 128)%N).
  { apply N.ltb_lt in Hch. unfold Ascii7.to_lower, Ascii7.is_upper.
    destruct (N.leb_spec 65 ch), (N.leb_spec ch 90); simpl; lia. }
  rewrite orb_true_iff, N.eqb_eq. split; [|auto].
  intros [H|H]; [exact H|]. exfalso. unfold ignorecase_fixes in H.
  destruct (N.eqb av 105), (N.eqb av 107), (N.eqb av 115); simpl in H;
    try discriminate;
    rewrite orb_false_r in H; apply N.eqb_eq in H; lia.
Qed.

Lemma lang_word_i_spells w :
  forallb Ascii7.is_lower w = true ->
  forall pos pre rest,
    forallb is_ascii pre = true ->
    lang (word_i ucd w) pos pre rest <-> spells w pre.
Proof.
  unfold word_i, spells.
  induction w as [|av w IH]; intros Hw pos pre rest Hpre.
  - simpl. split; [intros ->; reflexivity|].
    intros H. now destruct pre.
  - simpl in Hw. apply andb_true_iff in Hw as [Hav Hw].
    assert (Hlit : lit_i ucd av = Chr (ignorecase_accepts ucd av)).
    { unfold lit_i, Ascii7.is_letter. now rewrite Hav, orb_true_r. }
    cbn [map seq lang]. rewrite Hlit. cbn [lang]. split.
    + intros (p1 & p2 & -> & (c & -> & Hc) & H2).
      simpl in Hpre. apply andb_true_iff in Hpre as [Hc' Hp2].
      apply (@accepts_ascii av c Hav Hc') in Hc.
      apply (IH Hw _ _ _ Hp2) in H2. simpl. congruence.
    + intros H. destruct pre as [|c pre]; [discriminate|].
      simpl in H. injection H as Hc H2.
      simpl in Hpre. apply andb_true_iff in Hpre as [Hc' Hp2].
      exists [c], pre. split; [reflexivity|]. split.
      * exists c. split; [reflexivity|]. now apply (@accepts_ascii av c Hav Hc').
      * now apply IH.
Qed.

Lemma lang_role_pattern_spells pos pre rest :
  forallb is_ascii pre = true ->
  lang (role_pattern ucd) pos pre rest <->
  exists w, In w role_words /\ spells w pre.
Proof.
  intros Hpre. unfold role_pattern. cbn [lang].
  rewrite !(fun w H => @lang_word_i_spells w H pos pre rest Hpre)
    by reflexivity.
  unfold role_words. cbn [map In]. split.
  - intros H. decompose [or] H; eauto 10.
  - intros (w & Hw & Hs). decompose [or] Hw; subst; tauto.
Qed.

Lemma title_spelled w pre :
  In w role_words -> spells w pre -> title ucd pre = capitalize w.
Proof.
  intros Hw Hs. unfold title.
  assert (Hwl : map Ascii7.to_lower w = w /\ title ucd w = capitalize w).
  { unfold role_words in Hw. cbn [map In] in Hw.
    decompose [or] Hw; subst; try contradiction; split; reflexivity. }
  destruct Hwl as [Hwl Ht].
  assert (E : do_title ucd false [] pre = do_title ucd false [] w).
  { apply do_title_ceq; [|constructor].
    apply same_up_to_ascii_case_Forall2. unfold same_up_to_ascii_case.
    unfold spells in Hs. now rewrite Hs, Hwl. }
  rewrite E. exact Ht.
Qed.

Lemma forallb_app_parts (p : N -> bool) a b c :
  forallb p (a ++ b ++ c) = true -> forallb p b = true.
Proof.
  rewrite !forallb_app. intros H.
  apply andb_true_iff in H as [_ H]. now apply andb_true_iff in H as [H _].
Qed.

(** X14: for a text of ASCII characters the inferred role is the
    capitalized role word spelled first in the text, whatever the case of
    its letters, or "Software Engineer" when the text spells none. *)
Theorem inferred_role_of_ascii_text (text : pystr) :
  forallb is_ascii text = true ->
  let role := inferred_role ucd list_set text in
  (role = str "Software Engineer"
   /\ forall w before pre after,
        In w role_words -> text = before ++ pre ++ after -> ~ spells w pre)
  \/ (exists w before pre after,
        In w role_words /\ text = before ++ pre ++ after /\ spells w pre
        /\ role = capitalize w
        /\ forall w' before' pre' after',
             In w' role_words -> text = before' ++ pre' ++ after' ->
             spells w' pre' -> List.length before <= List.length before').
Proof.
  intros Ha role. subst role.
  unfold inferred_role, extract_skills_and_role_from_text. cbn [fst snd].
  unfold re_search.
  destruct (search_from (role_pattern ucd) 0 text) as [[st en]|] eqn:H.
  - right.
    pose proof (@search_from_leftmost _ _ _ _ _ H) as Hleft.
    apply search_from_sound in H as (sk & pre & rest & -> & -> & -> & Hl).
    change (0 + List.length sk) with (List.length sk) in *.
    rewrite group0_span.
    pose proof (forallb_app_parts _ _ _ _ Ha) as Hpre.
    apply (@lang_role_pattern_spells (List.length sk) pre rest Hpre) in Hl
      as (w & Hw & Hs).
    exists w, sk, pre, rest.
    split; [exact Hw|]. split; [reflexivity|]. split; [exact Hs|].
    split; [now apply title_spelled|].
    intros w' b' p' a' Hw' E Hs'.
    apply (Hleft b' p' a' E).
    apply lang_role_pattern_spells; [|eauto].
    rewrite E in Ha. exact (forallb_app_parts _ _ _ _ Ha).
  - left. split; [reflexivity|].
    intros w b p a Hw E Hs.
    destruct (@search_from_complete (role_pattern ucd) b 0 p a) as [m Hm].
    + apply lang_role_pattern_spells; [|eauto].
      rewrite E in Ha. exact (forallb_app_parts _ _ _ _ Ha).
    + rewrite <- E in Hm. congruence.
Qed.
End RoleValues.

Lemma split_lines_not_nil s : split_lines s <> [].
Proof.
  destruct s as [|c s]; simpl; [discriminate|].
  destruct (N.eqb c LF); [discriminate|].
  destruct (split_lines s); discriminate.
Qed.

Lemma split_lines_snoc s c :
  split_lines (s ++ [c])
  = if N.eqb c LF then split_lines s ++ [[]]
    else snoc_last (split_lines s) c.
Proof.
  induction s as [|x s IH]; simpl.
  - destruct (N.eqb c LF); reflexivity.
  - rewrite IH. pose proof (@split_lines_not_nil s) as Hn.
    destruct (N.eqb x LF), (N.eqb c LF); simpl; try reflexivity;
      destruct (split_lines s) as [|l [|l2 ls]]; try contradiction;
      reflexivity.
Qed.

Section PdfContent.
Variable u : N -> bool.

Lemma rstrip_snoc s c :
  rstrip u (s ++ [c]) = if is_space u c then rstrip u s else s ++ [c].
Proof.
  unfold rstrip. rewrite rev_app_distr. simpl.
  destruct (is_space u c); [reflexivity|].
  simpl. now rewrite rev_involutive.
Qed.

Lemma strip_cons_space c s :
  is_space u c = true -> strip u (c :: s) = strip u s.
Proof. intros H. unfold strip. simpl. now rewrite H. Qed.

Lemma strip_snoc_space s c :
  is_space u c = true -> strip u (s ++ [c]) = strip u s.
Proof.
  intros H. unfold strip.
  induction s as [|x s IH]; simpl.
  - now rewrite H.
  - destruct (is_space u x); [exact IH|].
    change (x :: s ++ [c]) with ((x :: s) ++ [c]).
    now rewrite rstrip_snoc, H.
Qed.

Lemma line_elements_app a b :
  line_elements u (a ++ b) = line_elements u a ++ line_elements u b.
Proof.
  induction a as [|q a IH]; [reflexivity|].
  simpl. rewrite IH. destruct (truthy (strip u q)); reflexivity.
Qed.

Lemma line_elements_snoc_last pieces c :
  is_space u c = true ->
  line_elements u (snoc_last pieces c) = line_elements u pieces.
Proof.
  intros H. induction pieces as [|l [|l2 rest] IH]; [reflexivity| |].
  - simpl. now rewrite (@strip_snoc_space l c H).
  - change (snoc_last (l :: l2 :: rest) c)
      with (l :: snoc_last (l2 :: rest) c).
    simpl in *. now rewrite IH.
Qed.

Lemma lines_cons_space c s :
  is_space u c = true ->
  line_elements u (split_lines (c :: s)) = line_elements u (split_lines s).
Proof.
  intros H. simpl. destruct (N.eqb c LF); [reflexivity|].
  pose proof (@split_lines_not_nil s) as Hn.
  destruct (split_lines s) as [|l ls]; [contradiction|].
  simpl. now rewrite (@strip_cons_space c l H).
Qed.

Lemma lines_snoc_space s c :
  is_space u c = true ->
  line_elements u (split_lines (s ++ [c])) = line_elements u (split_lines s).
Proof.
  intros H. rewrite split_lines_snoc. destruct (N.eqb c LF).
  - rewrite line_elements_app. simpl. apply app_nil_r.
  - now apply line_elements_snoc_last.
Qed.

Lemma lines_lstrip s :
  line_elements u (split_lines (lstrip u s))
  = line_elements u (split_lines s).
Proof.
  induction s as [|c s IH]; [reflexivity|].
  simpl lstrip. destruct (is_space u c) eqn:H; [|reflexivity].
  rewrite IH. symmetry. now apply lines_cons_space.
Qed.

Lemma lines_rstrip s :
  line_elements u (split_lines (rstrip u s))
  = line_elements u (split_lines s).
Proof.
  induction s as [|c s IH] using rev_ind; [reflexivity|].
  rewrite rstrip_snoc. destruct (is_space u c) eqn:H; [|reflexivity].
  rewrite IH. symmetry. now apply lines_snoc_space.
Qed.

(** X18: the PDF attached to the mail and the PDF offered for download
    are built from the same elements: the heading, then one paragraph for
    every line of the questions that is not blank, without the white
    space around it. *)
Theorem both_pdfs_have_the_same_content (questions : pystr) :
  generate_pdf_elements u questions = email_pdf_elements u questions.
Proof.
  unfold generate_pdf_elements, email_pdf_elements. f_equal.
  unfold strip. now rewrite lines_rstrip, lines_lstrip.
Qed.
End PdfContent.

(** * The further theorems at work on concrete inputs *)

Lemma world_at_session_ok st q n :
  session_ok ucd_excerpt (session (world_at st q n)).
Proof.
  split.
  - intros _. discriminate.
  - intros c [= <-]. split; reflexivity.
Qed.

Lemma session_candidate_always_consented_witness :
  session_ok ucd_excerpt
    (session (run_session ucd_excerpt insertion_order digits_parse ten_digits
                model_up smtp_ok [jane_form true; click_regenerate]
                (world_at info_gathering None 0))).
Proof.
  apply session_candidate_always_consented. apply world_at_session_ok.
Defined.

Lemma stage_never_returns_to_info_gathering_witness :
  left_info_gathering
    (session (run_session ucd_excerpt insertion_order digits_parse ten_digits
                model_up smtp_ok [jane_form true; jane_resume false]
                (world_at generate_questions None 0))).
Proof.
  apply stage_never_returns_to_info_gathering. left. reflexivity.
Defined.



Lemma run_script_request_budget_witness :
  asks (run_script ucd_excerpt insertion_order digits_parse ten_digits
          model_up smtp_ok click_regenerate
          (world_at generate_questions None 0)) <= 2.
Proof.
  pose proof (@run_script_request_budget ucd_excerpt insertion_order pystr
                digits_parse ten_digits model_up smtp_ok click_regenerate
                (world_at generate_questions None 0)) as H.
  cbv zeta in H. exact (proj1 H).
Defined.

Lemma manual_form_all_or_nothing_witness :
  let w := world_at info_gathering None 0 in
  let r := candidate_form_block ucd_excerpt digits_parse ten_digits
             (jane_form false) w in
  stage (session w) = Some info_gathering
  /\ ((outcome r = inl tt
       /\ events r = [call_save_candidate_data (form_record (jane_form false));
                      set_stage generate_questions]
       /\ candidate_info (session (final r))
          = Some (form_record (jane_form false)))
      \/ (outcome r = inl tt /\ final r = w
          /\ exists msg, events r = [st_warning msg])
      \/ (final r = w /\ events r = []
          /\ exists e,
               outcome r = inr (Uncaught e)
               /\ digits_parse (in_phone (jane_form false))
                    (upper ucd_excerpt (in_country (jane_form false)))
                  = Raise e
               /\ exn_type e <> NumberParseException)).
Proof.
  cbv zeta. split; [reflexivity|].
  exact (@manual_form_all_or_nothing ucd_excerpt pystr digits_parse
           ten_digits (jane_form false) (world_at info_gathering None 0)
           eq_refl eq_refl).
Defined.

Lemma run_script_never_alters_rows_witness :
  In jane
    (candidates
       (final (run_script ucd_excerpt insertion_order digits_parse ten_digits
                 model_up smtp_ok (jane_form true)
                 (world_at info_gathering None 0)))).
Proof.
  pose proof (@run_script_never_alters_rows ucd_excerpt insertion_order
                pystr digits_parse ten_digits model_up smtp_ok
                (jane_form true) (world_at info_gathering None 0)) as H.
  cbv zeta in H. apply (proj2 H).
  - left. reflexivity.
  - discriminate.
Defined.

Lemma deletion_block_effect_witness :
  ~ In jane
      (candidates
         (final (deletion_block ucd_excerpt click_delete
                   (world_at end_stage None 0)))).
Proof.
  pose proof (@deletion_block_effect ucd_excerpt click_delete
                (world_at end_stage None 0)) as H.
  cbv zeta in H. destruct H as (_ & _ & H & _).
  intros Hin. apply (H eq_refl eq_refl) in Hin as [_ Hn].
  apply Hn. reflexivity.
Defined.

Lemma save_then_delete_restores_witness :
  candidates
    (final (delete_user_data (c_email jane)
              (final (save_candidate_data jane fresh_world))))
  = candidates fresh_world.
Proof.
  pose proof (@save_then_delete_restores jane fresh_world
                (Forall_nil _)) as H.
  cbv zeta in H. exact (proj2 H).
Defined.

Lemma validate_email_accepted_form_witness :
  count_occ N.eq_dec (str "jane@example.com") 64%N = 1.
Proof.
  apply (@validate_email_accepted_form ucd_excerpt (str "jane@example.com")).
  reflexivity.
Defined.

Lemma extract_tech_keywords_monotone_witness :
  incl (extract_tech_keywords ucd_excerpt insertion_order (str "React"))
       (extract_tech_keywords ucd_excerpt insertion_order
          (str "I know React well")).
Proof.
  apply (@extract_tech_keywords_monotone ucd_excerpt insertion_order
           insertion_order_In).
  exists (str "I know "), (str " well"). reflexivity.
Defined.

Lemma javascript_implies_java_witness :
  In (str "Java")
    (extract_tech_keywords ucd_excerpt insertion_order
       (str "javascript developer")).
Proof.
  apply (@javascript_implies_java ucd_excerpt insertion_order
           insertion_order_In).
  vm_compute. right. left. reflexivity.
Defined.

Lemma skills_survive_the_tech_stack_witness :
  In (str "AWS")
    (extract_tech_keywords ucd_excerpt insertion_order
       (join (str ", ")
          (extract_tech_keywords ucd_excerpt insertion_order
             (str "skills: React, AWS, Docker")))).
Proof.
  apply (@skills_survive_the_tech_stack ucd_excerpt insertion_order
           insertion_order_In).
  vm_compute. right. left. reflexivity.
Defined.

Lemma inferred_role_of_ascii_text_witness :
  let text := str "Senior Software ENGINEER" in
  let role := inferred_role ucd_excerpt insertion_order text in
  forallb is_ascii text = true
  /\ ((role = str "Software Engineer"
       /\ forall w before pre after,
            In w role_words -> text = before ++ pre ++ after ->
            ~ spells w pre)
      \/ (exists w before pre after,
            In w role_words /\ text = before ++ pre ++ after
            /\ spells w pre /\ role = capitalize w
            /\ forall w' before' pre' after',
                 In w' role_words -> text = before' ++ pre' ++ after' ->
                 spells w' pre' ->
                 List.length before <= List.length before')).
Proof.
  cbv zeta. split; [reflexivity|].
  exact (@inferred_role_of_ascii_text ucd_excerpt insertion_order
           (str "Senior Software ENGINEER") eq_refl).
Defined.

Lemma inferred_email_spec_witness :
  resume_email_shape
    (inferred_email ucd_excerpt insertion_order
       (str "reachable at jane@example.com, skills: React")).
Proof.
  pose proof (@inferred_email_spec ucd_excerpt insertion_order
                (str "reachable at jane@example.com, skills: React")) as H.
  cbv zeta in H. apply (proj1 H). discriminate.
Defined.

Lemma jane_email_shape : resume_email_shape (str "jane@example.com").
Proof.
  exists (str "jane"), (str "example"), (str "com").
  repeat split; try discriminate; reflexivity.
Qed.

Lemma validate_email_on_inferred_witness :
  validate_email ucd_excerpt (str "jane@example.com") = true <->
  ~ In 43%N (str "jane@example.com")
  /\ exists before last_label,
       str "jane@example.com" = before ++ [46%N] ++ last_label
       /\ last_label <> []
       /\ forallb (is_word ucd_excerpt) last_label = true.
Proof.
  apply validate_email_on_inferred. apply jane_email_shape.
Defined.

Lemma pdf_page_skills_are_detected_witness :
  exists text,
    extract_resume_text two_page_pdf = Ok text
    /\ is_substring (str "Skills: React and Docker") text
    /\ In (str "Docker")
         (extract_tech_keywords ucd_excerpt insertion_order text).
Proof.
  apply (@pdf_page_skills_are_detected ucd_excerpt insertion_order
           insertion_order_In two_page_pdf (str "resume")
           [None; Some (str "Skills: React and Docker")]).
  - reflexivity.
  - reflexivity.
  - right. left. reflexivity.
  - vm_compute. right. left. reflexivity.
Defined.
